(** * WebpageClipperDB: the IndexedDB persistence layer of the Webpage Clipper

    A shallow embedding of [src/utils/db.js].  The module keeps one
    connection variable [db] and talks to one IndexedDB database that holds
    (at most) one object store, [clippedPages].  JavaScript objects are finite
    maps from property names to values, JavaScript strings are sequences of
    UTF-16 code units, the promise returned by each [async] function is the
    pair of its outcome and the state it leaves behind. *)

From Stdlib Require Import ZArith NArith List Lia DecimalN.
From stdpp Require Import base option list gmap strings sorting countable.

Local Open Scope Z_scope.

(** ** JavaScript values *)

Module JS.

(** A string is its sequence of UTF-16 code units. *)
Definition jsstring : Type := list N.

(** Code units of an ASCII literal. *)
Fixpoint lit (s : string) : jsstring :=
  match s with
  | EmptyString => []
  | String a s' => Ascii.N_of_ascii a :: lit s'
  end.

(** The primitive values an own property of a stored record can hold.
    Numbers are the integers (every number this module computes is one)
    and NaN; fractional numbers are not represented. *)
Inductive value : Type :=
| VUndef
| VNull
| VBool (b : bool)
| VNum (z : Z)
| VNaN
| VStr (s : jsstring).

#[global] Instance value_eq_dec : EqDecision value.
Proof. solve_decision. Defined.

(** ToBoolean. *)
Definition truthy (v : value) : bool :=
  match v with
  | VUndef | VNull | VNaN => false
  | VBool b => b
  | VNum z => negb (z =? 0)
  | VStr s => match s with [] => false | _ => true end
  end.

(** [a || b] *)
Definition or_else (a b : value) : value := if truthy a then a else b.

(** An object: its own enumerable properties. *)
Abbreviation object := (gmap string value).

(** Property read [o.f]: a missing property reads as [undefined]. *)
Definition get (o : object) (f : string) : value := default VUndef (o !! f).

(** [v != null] (loose inequality, as the side panel tests it). *)
Definition non_null (v : value) : Prop := v ≠ VNull ∧ v ≠ VUndef.

(** The class [\s] of a regular expression without the [u] flag, which is
    also what [String.prototype.trim] strips: WhiteSpace and
    LineTerminator code points (all in the basic plane). *)
Definition is_ws (c : N) : bool :=
  ((c =? 9) || (c =? 10) || (c =? 11) || (c =? 12) || (c =? 13)
   || (c =? 32) || (c =? 160) || (c =? 5760)
   || ((8192 <=? c) && (c <=? 8202))
   || (c =? 8232) || (c =? 8233) || (c =? 8239) || (c =? 8287)
   || (c =? 12288) || (c =? 65279))%N.

Fixpoint drop_ws (s : jsstring) : jsstring :=
  match s with
  | [] => []
  | c :: s' => if is_ws c then drop_ws s' else s
  end.

(** [s.trim()] *)
Definition trim (s : jsstring) : jsstring :=
  rev (drop_ws (rev (drop_ws s))).

(** [s.split(/\s+/)].  The scan keeps the code units of the piece being
    read ([cur], most recent first) and whether the previous code unit
    belonged to a separator ([in_sep]); a separator is a maximal run of
    whitespace, the piece before it is emitted when the run starts, and
    the piece after the last separator (possibly empty) is emitted at the
    end of the string.  The empty string gives one empty piece. *)
Fixpoint split_go (in_sep : bool) (cur : jsstring) (s : jsstring)
  : list jsstring :=
  match s with
  | [] => [rev cur]
  | c :: s' =>
      if is_ws c
      then (if in_sep then split_go true [] s'
            else rev cur :: split_go true [] s')
      else split_go false (c :: cur) s'
  end.

Definition split_ws (s : jsstring) : list jsstring := split_go false [] s.

(** [pieces.filter(Boolean)]: a string is kept when it is not empty. *)
Definition filter_Boolean (l : list jsstring) : list jsstring :=
  List.filter (fun p => truthy (VStr p)) l.

(** [Math.ceil(n / d)] for integers [0 <= n] and [0 < d]. *)
Definition ceil_div (n d : Z) : Z := (n + d - 1) / d.

End JS.

Export JS.

(** ** Derived metadata *)

(** The expression [text.trim().split(/\s+/).filter(Boolean)], written twice
    in the source (in the upgrade cursor and in [addClippedPage]).  It is a
    method call on [text], so it throws a TypeError unless [text] is a
    string. *)
Definition words_of_string (text : jsstring) : list jsstring :=
  filter_Boolean (split_ws (trim text)).

Definition words_of (text : value) : option (list jsstring) :=
  match text with
  | VStr s => Some (words_of_string s)
  | _ => None
  end.

(** [words.length] *)
Definition wordCount_of (words : list jsstring) : Z := Z.of_nat (length words).

(** [Math.ceil(words.length / 200)] *)
Definition readingTime_of (words : list jsstring) : Z :=
  ceil_div (wordCount_of words) 200.

(** The tokens of a text as the specification describes them: the maximal
    runs of code units that are not whitespace, in order. *)
Fixpoint tokens_go (cur : jsstring) (s : jsstring) : list jsstring :=
  match s with
  | [] => match cur with [] => [] | _ => [rev cur] end
  | c :: s' =>
      if is_ws c
      then match cur with
           | [] => tokens_go [] s'
           | _ => rev cur :: tokens_go [] s'
           end
      else tokens_go (c :: cur) s'
  end.

Definition tokens (s : jsstring) : list jsstring := tokens_go [] s.

(** ** The storage engine the module drives

    What IndexedDB does for the calls the source makes, after the Indexed
    Database API: keys and their order, an object store with in-line keys
    and a key generator, [add], [delete], [clear], [getAll] and the update
    through a cursor. *)

Inductive error : Type :=
| NotInitialized     (* [new Error('Database not initialized')] *)
| TypeError
| NotFoundError
| DataError
| ConstraintError
| VersionError
| AbortError.

Inductive result (A : Type) : Type :=
| Ok (a : A)
| Err (e : error).

Arguments Ok {A} a.
Arguments Err {A} e.

Module IDB.

(** Valid keys: numbers other than NaN, and strings. *)
Inductive key : Type :=
| KNum (z : Z)
| KStr (s : jsstring).

#[global] Instance key_eq_dec : EqDecision key.
Proof. solve_decision. Defined.

#[global] Instance key_countable : Countable key.
Proof.
  refine (inj_countable'
            (fun k => match k with KNum z => inl z | KStr s => inr s end)
            (fun x => match x with inl z => KNum z | inr s => KStr s end) _).
  intros []; reflexivity.
Defined.

Definition key_value (k : key) : value :=
  match k with KNum z => VNum z | KStr s => VStr s end.

(** Conversion of a value to a key; [None] when the value is not a valid
    key. *)
Definition to_key (v : value) : option key :=
  match v with
  | VNum z => Some (KNum z)
  | VStr s => Some (KStr s)
  | _ => None
  end.

(** Key order: numbers before strings, numbers by value, strings by code
    units. *)
Fixpoint str_leb (a b : jsstring) : bool :=
  match a, b with
  | [], _ => true
  | _ :: _, [] => false
  | x :: a', y :: b' =>
      if (x <? y)%N then true
      else if (x =? y)%N then str_leb a' b' else false
  end.

Definition key_leb (a b : key) : bool :=
  match a, b with
  | KNum x, KNum y => x <=? y
  | KNum _, KStr _ => true
  | KStr _, KNum _ => false
  | KStr x, KStr y => str_leb x y
  end.

Definition entry_le (a b : key * object) : Prop := key_leb a.1 b.1 = true.

#[global] Instance entry_le_dec : RelDecision entry_le.
Proof. intros a b. unfold entry_le. apply _. Defined.

(** The largest number a key generator hands out. *)
Definition MAX_KEY : Z := 2 ^ 53.

(** Modelled from the spec: the parameters of the object store.  No call of
    [createObjectStore] is left in the source; the store that an earlier
    schema version created is, by the persisted state layout of the
    specification and by the side panel reading [page.id], a store with
    the in-line key path [id] and an auto-incrementing numeric key. *)
Definition keyPath : string := "id".

Record objectStore : Type := {
  records : gmap key object;
  keygen : Z                   (* the key generator's current number *)
}.

(** The records in key order. *)
Definition entries (m : gmap key object) : list (key * object) :=
  merge_sort entry_le (map_to_list m).

(** [store.getAll()] *)
Definition getAll (s : objectStore) : list object := (entries (records s)).*2.

(** Extracting the key of a value through the key path: no key when the
    value has no such property, DataError when the property holds anything
    that is not a valid key ([undefined] included). *)
Definition extract_key (v : object) : result (option key) :=
  match v !! keyPath with
  | None => Ok None
  | Some x =>
      match to_key x with
      | Some k => Ok (Some k)
      | None => Err DataError
      end
  end.

(** An explicit numeric key at or above the generator's number moves the
    generator past it. *)
Definition bump (k : key) (g : Z) : Z :=
  match k with
  | KNum z => if g <=? z then Z.min z MAX_KEY + 1 else g
  | KStr _ => g
  end.

(** [store.add(v)]: the key comes from the value or, failing that, from
    the generator, which then writes it into the value; an existing key is
    a ConstraintError.  A failed request leaves the store as it was. *)
Definition add (v : object) (s : objectStore) : result (key * objectStore) :=
  match extract_key v with
  | Err e => Err e
  | Ok None =>
      if MAX_KEY <? keygen s then Err ConstraintError
      else
        let k := KNum (keygen s) in
        match records s !! k with
        | Some _ => Err ConstraintError
        | None =>
            Ok (k, {| records := <[k := <[keyPath := VNum (keygen s)]> v]> (records s);
                      keygen := keygen s + 1 |})
        end
  | Ok (Some k) =>
      match records s !! k with
      | Some _ => Err ConstraintError
      | None =>
          Ok (k, {| records := <[k := v]> (records s);
                    keygen := bump k (keygen s) |})
      end
  end.

(** [store.delete(q)]: DataError when [q] is not a valid key; otherwise
    the record with that key, if any, is removed. *)
Definition delete (q : value) (s : objectStore) : result objectStore :=
  match to_key q with
  | None => Err DataError
  | Some k => Ok {| records := base.delete k (records s); keygen := keygen s |}
  end.

(** [store.clear()]: the generator keeps its number. *)
Definition clear (s : objectStore) : objectStore :=
  {| records := ∅; keygen := keygen s |}.

(** [cursor.update(v)] at the record with key [k]: with in-line keys the
    key of [v] has to be [k]. *)
Definition cursor_update (k : key) (v : object) (m : gmap key object)
  : result (gmap key object) :=
  match extract_key v with
  | Ok (Some k') => if decide (k' = k) then Ok (<[k := v]> m) else Err DataError
  | _ => Err DataError
  end.

(** A database: its version (0 when it does not exist yet) and its object
    stores by name. *)
Record database : Type := {
  version : Z;
  objectStores : gmap string objectStore
}.

(** What the engine maintains in every store: a record carries its key in
    its [id] property, the generator's number is positive, and, as long as
    the generator can still hand out keys, it is above every numeric key
    in the store. *)
Definition wf_store (s : objectStore) : Prop :=
  (∀ k v, records s !! k = Some v → v !! keyPath = Some (key_value k))
  ∧ 1 ≤ keygen s
  ∧ (keygen s ≤ MAX_KEY → ∀ z, is_Some (records s !! KNum z) → z < keygen s).

End IDB.

Export IDB.

(** ** src/utils/db.js *)

Definition DB_NAME : string := "WebpageClipperDB".
Definition DB_VERSION : Z := 2.
Definition STORE_NAME : string := "clippedPages".

(** The connection ([IDBDatabase]) that [indexedDB.open] resolves to. *)
Record connection : Type := {
  conn_name : string;
  conn_version : Z
}.

(** The module's variable [db] and the database named [DB_NAME] behind
    [indexedDB]. *)
Record state : Type := {
  db : option connection;
  indexedDB : database
}.

Definition set_store (s : objectStore) (st : state) : state :=
  {| db := db st;
     indexedDB := {| version := version (indexedDB st);
                     objectStores := <[STORE_NAME := s]> (objectStores (indexedDB st)) |} |}.

(** The body of the cursor's [onsuccess] for one record: [None] when the
    record is left alone, the record to hand to [cursor.update] otherwise. *)
Definition backfill (data : object) : result (option object) :=
  if negb (truthy (get data "wordCount")) || negb (truthy (get data "readingTime"))
  then
    let text := or_else (get data "content") (VStr []) in
    match words_of text with
    | None => Err TypeError
    | Some words =>
        Ok (Some (<["readingTime" := VNum (readingTime_of words)]>
                    (<["wordCount" := VNum (wordCount_of words)]> data)))
    end
  else Ok None.

(** [store.openCursor()] with [cursor.continue()] after each record: the
    records are visited in key order; an exception in the handler ends the
    scan.  A visited record is read before any later one is written, and
    only visited records are written, so the values read are those of the
    store as the scan found it. *)
Fixpoint cursor_scan (l : list (key * object)) (m : gmap key object)
  : result (gmap key object) :=
  match l with
  | [] => Ok m
  | (k, data) :: l' =>
      match backfill data with
      | Err e => Err e
      | Ok None => cursor_scan l' m
      | Ok (Some data') =>
          match cursor_update k data' m with
          | Err e => Err e
          | Ok m' => cursor_scan l' m'
          end
      end
  end.

Definition openCursor_scan (m : gmap key object) : result (gmap key object) :=
  cursor_scan (entries m) m.

(** [request.onupgradeneeded]: when the store exists its records are
    scanned; when it does not, nothing is done. *)
Definition onupgradeneeded (d : database) : result database :=
  match objectStores d !! STORE_NAME with
  | Some store =>
      match openCursor_scan (records store) with
      | Err e => Err e
      | Ok m =>
          Ok {| version := version d;
                objectStores :=
                  <[STORE_NAME := {| records := m; keygen := keygen store |}]>
                    (objectStores d) |}
      end
  | None => Ok d
  end.

(** [initDB]: [indexedDB.open(DB_NAME, DB_VERSION)].  A stored version above
    the requested one is a VersionError; a lower one (0 for a database that
    does not exist) runs the upgrade handler in a version-change
    transaction, which an exception in the handler aborts, the database
    staying as it was; [db] is assigned only when the request succeeds. *)
Definition initDB (st : state) : result unit * state :=
  let d := indexedDB st in
  let conn := {| conn_name := DB_NAME; conn_version := DB_VERSION |} in
  if DB_VERSION <? version d then (Err VersionError, st)
  else if version d <? DB_VERSION then
    match onupgradeneeded {| version := DB_VERSION; objectStores := objectStores d |} with
    | Err _ => (Err AbortError, st)
    | Ok d' => (Ok (), {| db := Some conn; indexedDB := d' |})
    end
  else (Ok (), {| db := Some conn; indexedDB := d |}).

(** [db.transaction([STORE_NAME], mode).objectStore(STORE_NAME)]: a
    NotFoundError when the database has no store of that name. *)
Definition transaction (st : state) : result objectStore :=
  match objectStores (indexedDB st) !! STORE_NAME with
  | Some s => Ok s
  | None => Err NotFoundError
  end.

(** The record [addClippedPage] builds from [pageData]; [now] is
    [new Date().toISOString()]. *)
Definition new_record (now : jsstring) (pageData : object) (words : list jsstring)
  : object :=
  <["readingTime" := VNum (readingTime_of words)]>
    (<["wordCount" := VNum (wordCount_of words)]>
       (<["timestamp" := or_else (get pageData "timestamp") (VStr now)]> pageData)).

Definition addClippedPage (now : jsstring) (pageData : object) (st : state)
  : result key * state :=
  match db st with
  | None => (Err NotInitialized, st)
  | Some _ =>
      let text := or_else (get pageData "content") (VStr []) in
      match words_of text with
      | None => (Err TypeError, st)
      | Some words =>
          let data := new_record now pageData words in
          match transaction st with
          | Err e => (Err e, st)
          | Ok store =>
              match add data store with
              | Err e => (Err e, st)
              | Ok (k, store') => (Ok k, set_store store' st)
              end
          end
      end
  end.

Definition getAllClippedPages (st : state) : result (list object) * state :=
  match db st with
  | None => (Err NotInitialized, st)
  | Some _ =>
      match transaction st with
      | Err e => (Err e, st)
      | Ok store => (Ok (getAll store), st)
      end
  end.

Definition deleteClippedPage (id : value) (st : state) : result unit * state :=
  match db st with
  | None => (Err NotInitialized, st)
  | Some _ =>
      match transaction st with
      | Err e => (Err e, st)
      | Ok store =>
          match delete id store with
          | Err e => (Err e, st)
          | Ok store' => (Ok (), set_store store' st)
          end
      end
  end.

Definition clearAllClippedPages (st : state) : result unit * state :=
  match db st with
  | None => (Err NotInitialized, st)
  | Some _ =>
      match transaction st with
      | Err e => (Err e, st)
      | Ok store => (Ok (), set_store (clear store) st)
      end
  end.

(** The state of a fresh install: no connection, no database. *)
Definition fresh : state :=
  {| db := None; indexedDB := {| version := 0; objectStores := ∅ |} |}.

(** Every store of the database is as the engine keeps it. *)
Definition wf_state (st : state) : Prop :=
  ∀ n s, objectStores (indexedDB st) !! n = Some s → wf_store s.

(** [r] agrees with [pageData] on [title], [url] and [content]. *)
Definition same_page (pageData r : object) : Prop :=
  r !! "title" = pageData !! "title"
  ∧ r !! "url" = pageData !! "url"
  ∧ r !! "content" = pageData !! "content".

#[global] Instance same_page_dec pageData r : Decision (same_page pageData r).
Proof. unfold same_page. apply _. Defined.

(** The scenario record of the specification:
    [{title:"A", url:"http://x", content:"one two three"}]. *)
Definition sample_page : object :=
  {[ "title" := VStr (lit "A");
     "url" := VStr (lit "http://x");
     "content" := VStr (lit "one two three") ]}.

(** The scenario record as the store holds it under key 1. *)
Definition stored_sample : object :=
  <["readingTime" := VNum 1]>
    (<["wordCount" := VNum 3]>
       (<["timestamp" := VStr (lit "2024-01-01T00:00:00.000Z")]>
          (<["id" := VNum 1]> sample_page))).

(** An installation left by the previous schema version: version 1, the
    store [clippedPages] holding [recs], not yet opened. *)
Definition legacy (recs : gmap key object) (g : Z) : state :=
  {| db := None;
     indexedDB := {| version := 1;
                     objectStores := {[ STORE_NAME := {| records := recs; keygen := g |} ]} |} |}.

(** The cursor handler's test [!data.wordCount || !data.readingTime]. *)
Definition missing_metadata (data : object) : bool :=
  negb (truthy (get data "wordCount")) || negb (truthy (get data "readingTime")).

(** One visit of the cursor at the record [data] under key [k]: the record
    the store holds there afterwards. *)
Definition cursor_step (k : key) (data : object) : result object :=
  match backfill data with
  | Err e => Err e
  | Ok None => Ok data
  | Ok (Some data') =>
      match cursor_update k data' ∅ with
      | Err e => Err e
      | Ok _ => Ok data'
      end
  end.

(** The migration scenario of the specification: a record written before the
    metadata fields existed, with content "a b", and a record that already
    has [wordCount = 5] and [readingTime = 1]. *)
Definition old_record : object :=
  {[ "id" := VNum 1; "title" := VStr (lit "A"); "url" := VStr (lit "http://x");
     "content" := VStr (lit "a b") ]}.

Definition kept_record : object :=
  {[ "id" := VNum 2; "title" := VStr (lit "B"); "url" := VStr (lit "http://y");
     "content" := VStr (lit "p q r s t"); "wordCount" := VNum 5;
     "readingTime" := VNum 1 ]}.

Definition pre_migration : gmap key object :=
  {[ KNum 1 := old_record; KNum 2 := kept_record ]}.

Definition post_migration : gmap key object :=
  {[ KNum 1 := <["readingTime" := VNum 1]> (<["wordCount" := VNum 2]> old_record);
     KNum 2 := kept_record ]}.

(** The same installation once [initDB] has run on it. *)
Definition opened (recs : gmap key object) (g : Z) : state :=
  (initDB (legacy recs g)).2.

(** A clock reading, [new Date().toISOString()]. *)
Definition noon : jsstring := lit "2024-01-01T12:00:00.000Z".

(** [l.join(sep)] *)
Fixpoint join (sep : jsstring) (l : list jsstring) : jsstring :=
  match l with
  | [] => []
  | [x] => x
  | x :: l' => x ++ sep ++ join sep l'
  end.

(** A word: a non-empty string without whitespace. *)
Definition word (t : jsstring) : Prop :=
  t ≠ [] ∧ forallb (fun c => negb (is_ws c)) t = true.

(** ** Sequences of calls

    The module exports [init], [addPage], [getAllPages], [deletePage] and
    [clearAllPages]; a caller that awaits each call before the next one
    drives the state through a sequence of them. *)

Inductive call : Type :=
| CInit
| CAdd (now : jsstring) (pageData : object)
| CGetAll
| CDelete (id : value)
| CClear.

(** The state a call leaves, whether it resolved or rejected. *)
Definition step (c : call) (st : state) : state :=
  match c with
  | CInit => (initDB st).2
  | CAdd now pageData => (addClippedPage now pageData st).2
  | CGetAll => (getAllClippedPages st).2
  | CDelete id => (deleteClippedPage id st).2
  | CClear => (clearAllClippedPages st).2
  end.

Definition run (cs : list call) (st : state) : state :=
  foldl (fun st c => step c st) st cs.

(** Every record of the store has [wordCount] and [readingTime]. *)
Definition has_metadata (s : objectStore) : Prop :=
  ∀ k v, records s !! k = Some v →
         non_null (get v "wordCount") ∧ non_null (get v "readingTime").

(** ** The delete button of the side panel

    [renderClippedPages] writes [data-id="${page.id}"] on each delete button
    and the click handler calls [deletePage(parseInt(dataset.id, 10))]. *)

(** The decimal digits of a natural number as code units, and back. *)
Fixpoint uint_chars (u : Decimal.uint) : jsstring :=
  match u with
  | Decimal.Nil => []
  | Decimal.D0 u => 48%N :: uint_chars u
  | Decimal.D1 u => 49%N :: uint_chars u
  | Decimal.D2 u => 50%N :: uint_chars u
  | Decimal.D3 u => 51%N :: uint_chars u
  | Decimal.D4 u => 52%N :: uint_chars u
  | Decimal.D5 u => 53%N :: uint_chars u
  | Decimal.D6 u => 54%N :: uint_chars u
  | Decimal.D7 u => 55%N :: uint_chars u
  | Decimal.D8 u => 56%N :: uint_chars u
  | Decimal.D9 u => 57%N :: uint_chars u
  end.

(** The longest prefix of decimal digits of a string. *)
Fixpoint read_digits (s : jsstring) : Decimal.uint :=
  match s with
  | [] => Decimal.Nil
  | c :: s' =>
      if (c =? 48)%N then Decimal.D0 (read_digits s')
      else if (c =? 49)%N then Decimal.D1 (read_digits s')
      else if (c =? 50)%N then Decimal.D2 (read_digits s')
      else if (c =? 51)%N then Decimal.D3 (read_digits s')
      else if (c =? 52)%N then Decimal.D4 (read_digits s')
      else if (c =? 53)%N then Decimal.D5 (read_digits s')
      else if (c =? 54)%N then Decimal.D6 (read_digits s')
      else if (c =? 55)%N then Decimal.D7 (read_digits s')
      else if (c =? 56)%N then Decimal.D8 (read_digits s')
      else if (c =? 57)%N then Decimal.D9 (read_digits s')
      else Decimal.Nil
  end.

(** ToString, as the template literal applies it.  For a number this is the
    plain decimal form, which is what JavaScript prints for the integers
    below 10^21. *)
Definition to_string (v : value) : jsstring :=
  match v with
  | VUndef => lit "undefined"
  | VNull => lit "null"
  | VBool true => lit "true"
  | VBool false => lit "false"
  | VNum z =>
      if z <? 0 then 45%N :: uint_chars (N.to_uint (Z.abs_N z))
      else uint_chars (N.to_uint (Z.to_N z))
  | VNaN => lit "NaN"
  | VStr s => s
  end.

(** [parseInt(s, 10)]: leading whitespace is skipped, a sign is read, then
    the longest prefix of decimal digits; without a digit the result is NaN.
    The number read is exact for the integers up to 2^53. *)
Definition parseInt (s : jsstring) : value :=
  let s1 := drop_ws s in
  let '(negative, s2) :=
    match s1 with
    | 45%N :: s2 => (true, s2)
    | 43%N :: s2 => (false, s2)
    | _ => (false, s1)
    end in
  match read_digits s2 with
  | Decimal.Nil => VNaN
  | u => VNum (if negative then - Z.of_N (N.of_uint u) else Z.of_N (N.of_uint u))
  end.

(** The text of the [data-id] attribute of the button rendered for [page]. *)
Definition data_id (page : object) : jsstring := to_string (get page "id").

(** A click on a delete button whose [data-id] reads [attr]: the handler
    awaits [deletePage] and logs a rejection; the state it leaves. *)
Definition delete_click (attr : jsstring) (st : state) : state :=
  (deleteClippedPage (parseInt attr) st).2.

(** * Properties *)

Example words_three :
  words_of_string (lit "one two three") = [lit "one"; lit "two"; lit "three"].
Proof. reflexivity. Qed.

Example split_edges :
  split_ws (lit " a  b ") = [[]; lit "a"; lit "b"; []] ∧ split_ws [] = [[]].
Proof. split; reflexivity. Qed.

(** ** The metadata derivation *)

Section Metadata.

Lemma rev_cons_not_nil (c : N) (cur : jsstring) : rev (c :: cur) ≠ [].
Proof. simpl. destruct (rev cur); discriminate. Qed.

Lemma truthy_rev_cons (c : N) (cur : jsstring) :
  truthy (VStr (rev (c :: cur))) = true.
Proof.
  pose proof (rev_cons_not_nil c cur) as H.
  simpl in *. destruct (rev cur ++ [c]); [congruence | reflexivity].
Qed.

(** Dropping the empty pieces of a split leaves the maximal runs. *)
Lemma filter_split_go (s : jsstring) :
  ∀ in_sep cur, (in_sep = true → cur = []) →
    filter_Boolean (split_go in_sep cur s) = tokens_go cur s.
Proof.
  unfold filter_Boolean.
  induction s as [|c s IH]; intros in_sep cur Hsep.
  - destruct cur as [|x cur]; [reflexivity|].
    cbn [split_go tokens_go List.filter]. now rewrite truthy_rev_cons.
  - cbn [split_go tokens_go]. destruct (is_ws c).
    + destruct in_sep.
      * rewrite (Hsep eq_refl). now apply IH.
      * cbn [List.filter]. destruct cur as [|x cur].
        -- cbn. now apply IH.
        -- rewrite truthy_rev_cons. f_equal. now apply IH.
    + apply IH. discriminate.
Qed.

Lemma tokens_go_drop_ws (s : jsstring) :
  tokens_go [] (drop_ws s) = tokens_go [] s.
Proof.
  induction s as [|c s IH]; [reflexivity|].
  cbn [drop_ws]. destruct (is_ws c) eqn:E; [|reflexivity].
  cbn [tokens_go]. now rewrite E.
Qed.

Lemma tokens_go_ws_only (w : jsstring) :
  forallb is_ws w = true → tokens_go [] w = [].
Proof.
  induction w as [|c w IH]; [reflexivity|].
  cbn. intros [-> Hw]%andb_prop. now apply IH.
Qed.

Lemma tokens_go_app_ws (w : jsstring) (Hw : forallb is_ws w = true) (s : jsstring) :
  ∀ cur, tokens_go cur (s ++ w) = tokens_go cur s.
Proof.
  induction s as [|c s IH]; intros cur.
  - cbn [app]. destruct w as [|c w]; [reflexivity|].
    cbn in Hw. apply andb_prop in Hw as [Hc Hw].
    cbn [tokens_go]. rewrite Hc, (tokens_go_ws_only _ Hw).
    now destruct cur.
  - cbn [app tokens_go]. destruct (is_ws c); [|apply IH].
    destruct cur; now rewrite IH.
Qed.

Lemma drop_ws_prefix (l : jsstring) :
  ∃ w, l = w ++ drop_ws l ∧ forallb is_ws w = true.
Proof.
  induction l as [|c l (w & Hl & Hw)]; [now exists []|].
  cbn [drop_ws]. destruct (is_ws c) eqn:E.
  - exists (c :: w). cbn. rewrite E, Hw. split; [now f_equal | reflexivity].
  - now exists [].
Qed.

Lemma forallb_rev (w : jsstring) :
  forallb is_ws w = true → forallb is_ws (rev w) = true.
Proof.
  rewrite !forallb_forall. intros H x Hx. apply H. now apply in_rev.
Qed.

(** A string is its trimmed end followed by whitespace. *)
Lemma drop_ws_suffix (l : jsstring) :
  ∃ w, l = rev (drop_ws (rev l)) ++ w ∧ forallb is_ws w = true.
Proof.
  destruct (drop_ws_prefix (rev l)) as (w & Hl & Hw).
  exists (rev w). split; [|now apply forallb_rev].
  rewrite <- rev_app_distr, <- Hl. now rewrite rev_involutive.
Qed.

Lemma tokens_trim (s : jsstring) : tokens (trim s) = tokens s.
Proof.
  unfold tokens, trim.
  destruct (drop_ws_suffix (drop_ws s)) as (w & Hl & Hw).
  rewrite <- (tokens_go_drop_ws s).
  transitivity (tokens_go [] (rev (drop_ws (rev (drop_ws s))) ++ w)).
  - symmetry. now apply tokens_go_app_ws.
  - now rewrite <- Hl.
Qed.

Lemma words_of_string_tokens (s : jsstring) : words_of_string s = tokens s.
Proof.
  unfold words_of_string, split_ws.
  rewrite filter_split_go by discriminate. apply tokens_trim.
Qed.

Lemma tokens_ws_only (c : jsstring) : forallb is_ws c = true → tokens c = [].
Proof. apply tokens_go_ws_only. Qed.

Lemma ceil_div_200 (n : Z) :
  0 ≤ n → 200 * (ceil_div n 200 - 1) < n ≤ 200 * ceil_div n 200.
Proof.
  intros Hn. unfold ceil_div.
  pose proof (Z.div_mod (n + 200 - 1) 200 ltac:(lia)).
  pose proof (Z.mod_pos_bound (n + 200 - 1) 200 ltac:(lia)).
  lia.
Qed.

End Metadata.

Section Joined.

Lemma tokens_go_word (t : jsstring) :
  forallb (fun c => negb (is_ws c)) t = true →
  ∀ cur rest, tokens_go cur (t ++ rest) = tokens_go (rev t ++ cur) rest.
Proof.
  induction t as [|c t IH]; intros Ht cur rest; [reflexivity|].
  cbn in Ht. apply andb_prop in Ht as [Hc Ht].
  cbn [app tokens_go]. destruct (is_ws c); [discriminate|].
  rewrite IH by assumption. cbn [rev]. now rewrite <- app_assoc.
Qed.

Lemma tokens_go_one (t : jsstring) :
  word t → tokens_go [] t = [t].
Proof.
  intros [Hne Ht]. rewrite <- (app_nil_r t) at 1.
  rewrite tokens_go_word by assumption. rewrite app_nil_r.
  cbn [tokens_go]. rewrite rev_involutive.
  destruct (rev t) eqn:E; [|reflexivity].
  apply (f_equal (@rev N)) in E. rewrite rev_involutive in E. contradiction.
Qed.

(** Words joined by single spaces are read back as they were. *)
Lemma tokens_join (l : list jsstring) :
  Forall word l → tokens (join (lit " ") l) = l.
Proof.
  unfold tokens. induction 1 as [|t l Ht Hl IH]; [reflexivity|].
  destruct l as [|u l].
  - now apply tokens_go_one.
  - change (join (lit " ") (t :: u :: l))
      with (t ++ 32%N :: join (lit " ") (u :: l)).
    destruct Ht as [Hne Ht].
    rewrite tokens_go_word by assumption. rewrite app_nil_r.
    cbn [tokens_go]. change (is_ws 32) with true. cbn match.
    rewrite rev_involutive, IH.
    destruct (rev t) eqn:E; [|reflexivity].
    apply (f_equal (@rev N)) in E. rewrite rev_involutive in E. contradiction.
Qed.

End Joined.

(** ** The engine *)

Section Engine.

Implicit Types (m : gmap key object) (s : objectStore) (k : key) (v : object).

Lemma entries_perm m : entries m ≡ₚ map_to_list m.
Proof. apply merge_sort_Permutation. Qed.

Lemma elem_of_entries m k v : (k, v) ∈ entries m ↔ m !! k = Some v.
Proof. rewrite entries_perm. apply elem_of_map_to_list. Qed.

Lemma NoDup_entries_keys m : NoDup (entries m).*1.
Proof. rewrite entries_perm. apply NoDup_fst_map_to_list. Qed.

Lemma entries_empty : entries (∅ : gmap key object) = [].
Proof. unfold entries. now rewrite map_to_list_empty. Qed.

Lemma elem_of_getAll s v : v ∈ getAll s ↔ ∃ k, records s !! k = Some v.
Proof.
  unfold getAll. rewrite list_elem_of_fmap. split.
  - intros ([k v'] & -> & H). exists k. now apply elem_of_entries.
  - intros (k & H). exists (k, v). split; [reflexivity|]. now apply elem_of_entries.
Qed.

Lemma getAll_insert s k v g :
  records s !! k = None →
  getAll {| records := <[k := v]> (records s); keygen := g |} ≡ₚ v :: getAll s.
Proof.
  intros Hk. unfold getAll. cbn [records].
  rewrite !entries_perm, map_to_list_insert by assumption. reflexivity.
Qed.

Lemma to_key_value q k : to_key q = Some k → q = key_value k.
Proof. destruct q; intros [= <-]; reflexivity. Qed.

Lemma key_value_inj k k' : key_value k = key_value k' → k = k'.
Proof. destruct k, k'; intros [= ->]; reflexivity. Qed.

Lemma to_key_key_value k : to_key (key_value k) = Some k.
Proof. now destruct k. Qed.

Lemma extract_key_Some v k :
  extract_key v = Ok (Some k) → v !! keyPath = Some (key_value k).
Proof.
  unfold extract_key. destruct (v !! keyPath) as [x|]; [|discriminate].
  destruct x; cbn; intros [= <-]; reflexivity.
Qed.

Lemma extract_key_of_id v k :
  v !! keyPath = Some (key_value k) → extract_key v = Ok (Some k).
Proof. unfold extract_key. intros ->. now destruct k. Qed.

(** A successful [add] puts one record, under a key the store did not
    have; the value stored is the one given, with the key written to [id]
    when the generator made it. *)
Lemma add_Ok v s k s' :
  add v s = Ok (k, s') →
  records s !! k = None
  ∧ ∃ x, records s' = <[k := x]> (records s)
       ∧ x !! keyPath = Some (key_value k)
       ∧ ∀ f, f ≠ keyPath → x !! f = v !! f.
Proof.
  unfold add. destruct (extract_key v) as [[k0|]|] eqn:Ek; [| |discriminate].
  - destruct (records s !! k0) eqn:El; [discriminate|].
    intros [= <- <-]. split; [assumption|]. exists v.
    split; [reflexivity|]. split; [now apply extract_key_Some | reflexivity].
  - destruct (MAX_KEY <? keygen s); [discriminate|].
    destruct (records s !! KNum (keygen s)) eqn:El; [discriminate|].
    intros [= <- <-]. split; [assumption|].
    exists (<[keyPath := VNum (keygen s)]> v). split; [reflexivity|].
    split; [apply lookup_insert_eq|]. intros f Hf. now apply lookup_insert_ne.
Qed.

Lemma add_wf v s k s' : wf_store s → add v s = Ok (k, s') → wf_store s'.
Proof.
  intros (Hid & Hpos & Hgen). unfold add.
  destruct (extract_key v) as [[k0|]|] eqn:Ek; [| |discriminate].
  - destruct (records s !! k0) eqn:El; [discriminate|].
    intros [= <- <-]. repeat split; cbn [records keygen].
    + intros k1 v1. rewrite lookup_insert. case_decide as Hd.
      * intros [= <-]. subst k1. now apply extract_key_Some.
      * apply Hid.
    + unfold bump, MAX_KEY. destruct k0 as [z|]; [|assumption].
      destruct (Z.leb_spec (keygen s) z); lia.
    + intros Hle z. rewrite lookup_insert. case_decide as Hd.
      * intros _. subst k0. unfold bump in *.
        destruct (Z.leb_spec (keygen s) z); lia.
      * intros Hz. unfold bump, MAX_KEY in *. destruct k0 as [z0|].
        -- destruct (Z.leb_spec (keygen s) z0).
           ++ assert (keygen s ≤ 2 ^ 53) by lia. specialize (Hgen H0 z Hz). lia.
           ++ now apply Hgen.
        -- now apply Hgen.
  - destruct (Z.ltb_spec MAX_KEY (keygen s)); [discriminate|].
    destruct (records s !! KNum (keygen s)) eqn:El; [discriminate|].
    intros [= <- <-]. repeat split; cbn [records keygen].
    + intros k1 v1. rewrite lookup_insert. case_decide as Hd.
      * intros [= <-]. subst k1. apply lookup_insert_eq.
      * apply Hid.
    + lia.
    + intros Hle z. rewrite lookup_insert. case_decide as Hd.
      * intros _. injection Hd as ->. lia.
      * intros Hz. specialize (Hgen H z Hz). lia.
Qed.

(** With a generator that has keys left and no [id] in the value, [add]
    succeeds with the generator's number. *)
Lemma add_generated v s :
  wf_store s → keygen s ≤ MAX_KEY → extract_key v = Ok None →
  add v s = Ok (KNum (keygen s),
                {| records := <[KNum (keygen s) := <[keyPath := VNum (keygen s)]> v]> (records s);
                   keygen := keygen s + 1 |}).
Proof.
  intros (_ & _ & Hgen) Hle Ek. unfold add. rewrite Ek.
  destruct (Z.ltb_spec MAX_KEY (keygen s)); [lia|].
  destruct (records s !! KNum (keygen s)) eqn:El; [|reflexivity].
  specialize (Hgen Hle (keygen s) (mk_is_Some _ _ El)). lia.
Qed.

Lemma wf_store_id s k v :
  wf_store s → records s !! k = Some v → get v "id" = key_value k.
Proof. intros (Hid & _) Hv. unfold get. now rewrite (Hid _ _ Hv : v !! "id" = _). Qed.

Lemma delete_wf q s s' : wf_store s → delete q s = Ok s' → wf_store s'.
Proof.
  intros (Hid & Hpos & Hgen). unfold delete.
  destruct (to_key q) as [k|]; [|discriminate]. intros [= <-].
  repeat split; cbn [records keygen]; [|assumption|].
  - intros k1 v1 [_ H]%lookup_delete_Some. now apply Hid.
  - intros Hle z [x [_ H]%lookup_delete_Some]. apply (Hgen Hle). now exists x.
Qed.

Lemma clear_wf s : wf_store s → wf_store (clear s).
Proof.
  intros (_ & Hpos & _). repeat split; cbn [clear records keygen]; [|assumption|].
  - intros k v. now rewrite lookup_empty.
  - intros _ z [x H]. now rewrite lookup_empty in H.
Qed.

End Engine.

(** ** The operations of the module *)

Section Operations.

Implicit Types (st : state) (s : objectStore) (r x : object).

Lemma transaction_Ok st s :
  transaction st = Ok s ↔ objectStores (indexedDB st) !! STORE_NAME = Some s.
Proof.
  unfold transaction. destruct (objectStores (indexedDB st) !! STORE_NAME).
  - split; intros [= ->]; reflexivity.
  - split; discriminate.
Qed.

Lemma transaction_set_store s st : transaction (set_store s st) = Ok s.
Proof. apply transaction_Ok. cbn. apply lookup_insert_eq. Qed.

Lemma db_set_store s st : db (set_store s st) = db st.
Proof. reflexivity. Qed.

(** Writing back the store that is there changes nothing. *)
Lemma set_store_same s st :
  objectStores (indexedDB st) !! STORE_NAME = Some s → set_store s st = st.
Proof.
  intros H. destruct st as [c [ver stores]]. unfold set_store. cbn in *.
  now rewrite insert_id.
Qed.

Lemma getAllClippedPages_ready st s :
  is_Some (db st) → objectStores (indexedDB st) !! STORE_NAME = Some s →
  getAllClippedPages st = (Ok (getAll s), st).
Proof.
  intros [c Hc] Hs. unfold getAllClippedPages. rewrite Hc.
  apply transaction_Ok in Hs. now rewrite Hs.
Qed.

(** No operation of the module creates the object store. *)
Lemma initDB_no_store st :
  objectStores (indexedDB st) !! STORE_NAME = None →
  objectStores (indexedDB (initDB st).2) !! STORE_NAME = None.
Proof.
  intros H. unfold initDB, onupgradeneeded.
  destruct (DB_VERSION <? version (indexedDB st)); [assumption|].
  destruct (version (indexedDB st) <? DB_VERSION); [|assumption].
  cbn [objectStores]. now rewrite H.
Qed.

(** A failed [initDB] leaves everything as it was, [db] included. *)
Lemma initDB_Err st e st' : initDB st = (Err e, st') → st' = st.
Proof.
  unfold initDB.
  destruct (DB_VERSION <? version (indexedDB st)); [now intros [= _ <-]|].
  destruct (version (indexedDB st) <? DB_VERSION); [|discriminate].
  destruct (onupgradeneeded _); [discriminate|]. now intros [= _ <-].
Qed.

Lemma initDB_Ok st st' :
  initDB st = (Ok (), st') →
  db st' = Some {| conn_name := DB_NAME; conn_version := DB_VERSION |}
  ∧ version (indexedDB st') = DB_VERSION.
Proof.
  unfold initDB.
  destruct (Z.ltb_spec DB_VERSION (version (indexedDB st))); [discriminate|].
  destruct (Z.ltb_spec (version (indexedDB st)) DB_VERSION).
  - unfold onupgradeneeded. cbn [objectStores version].
    destruct (objectStores (indexedDB st) !! STORE_NAME).
    + destruct (openCursor_scan _); [|discriminate]. now intros [= <-].
    + now intros [= <-].
  - intros [= <-]. cbn. split; [reflexivity | lia].
Qed.

End Operations.

(** C1.  On a fresh install [initDB] succeeds and leaves a connection to a
    database at version 2 that has no object store: the upgrade handler only
    scans a store that is already there and never creates one.  Adding the
    scenario record then fails with a NotFoundError, and nothing is stored. *)
Theorem fresh_install_addPage_fails :
  ∃ st,
    initDB fresh = (Ok (), st)
    ∧ db st = Some {| conn_name := DB_NAME; conn_version := DB_VERSION |}
    ∧ version (indexedDB st) = DB_VERSION
    ∧ objectStores (indexedDB st) !! STORE_NAME = None
    ∧ ∀ now, addClippedPage now sample_page st = (Err NotFoundError, st).
Proof.
  eexists. split; [reflexivity|]. repeat split.
Qed.

(** C4.  While [db] is unset, each of the four operations rejects with the
    "Database not initialized" error and leaves the state as it is. *)
Theorem operations_before_init (st : state) :
  db st = None →
  (∀ now pageData, addClippedPage now pageData st = (Err NotInitialized, st))
  ∧ getAllClippedPages st = (Err NotInitialized, st)
  ∧ (∀ id, deleteClippedPage id st = (Err NotInitialized, st))
  ∧ clearAllClippedPages st = (Err NotInitialized, st).
Proof.
  intros H.
  unfold addClippedPage, getAllClippedPages, deleteClippedPage, clearAllClippedPages.
  rewrite H. repeat split.
Qed.

Lemma operations_before_init_witness :
  db (legacy {[ KNum 1 := stored_sample ]} 2) = None
  ∧ addClippedPage (lit "2024-01-01T00:00:00.000Z") sample_page
      (legacy {[ KNum 1 := stored_sample ]} 2)
    = (Err NotInitialized, legacy {[ KNum 1 := stored_sample ]} 2)
  ∧ deleteClippedPage (VNum 1) (legacy {[ KNum 1 := stored_sample ]} 2)
    = (Err NotInitialized, legacy {[ KNum 1 := stored_sample ]} 2).
Proof.
  split; [reflexivity|].
  pose proof (operations_before_init
                (legacy {[ KNum 1 := stored_sample ]} 2) eq_refl)
    as (Hadd & _ & Hdel & _).
  split; [apply Hadd | apply Hdel].
Defined.

(** C6.  In an initialized state, once [clearAllClippedPages] has succeeded
    [getAllClippedPages] succeeds with the empty list. *)
Theorem clear_then_getAll (st st' : state) :
  is_Some (db st) →
  clearAllClippedPages st = (Ok (), st') →
  getAllClippedPages st' = (Ok [], st').
Proof.
  intros [c Hc]. unfold clearAllClippedPages. rewrite Hc.
  destruct (transaction st) as [s|] eqn:Ht; [|discriminate].
  intros [= <-]. unfold getAllClippedPages.
  rewrite db_set_store, Hc, transaction_set_store.
  unfold getAll, clear. cbn [records]. now rewrite entries_empty.
Qed.

Lemma clear_then_getAll_witness :
  is_Some (db (opened {[ KNum 1 := stored_sample ]} 2))
  ∧ clearAllClippedPages (opened {[ KNum 1 := stored_sample ]} 2)
    = (Ok (), opened ∅ 2)
  ∧ getAllClippedPages (opened ∅ 2) = (Ok [], opened ∅ 2).
Proof.
  assert (Hdb : is_Some (db (opened {[ KNum 1 := stored_sample ]} 2)))
    by (vm_compute; eauto).
  assert (Hclear : clearAllClippedPages (opened {[ KNum 1 := stored_sample ]} 2)
                   = (Ok (), opened ∅ 2)) by (vm_compute; reflexivity).
  split; [exact Hdb|]. split; [exact Hclear|].
  exact (clear_then_getAll _ _ Hdb Hclear).
Defined.

(** C5 as it stands fails: in an initialized state whose store is there and
    holds no record with id NaN, [deleteClippedPage(NaN)] is rejected with a
    DataError, NaN not being a valid key. *)
Lemma deletePage_invalid_key :
  ¬ (∀ (st : state) (id : value) (pages : list object),
       is_Some (db st) →
       getAllClippedPages st = (Ok pages, st) →
       (∀ r, r ∈ pages → get r "id" ≠ id) →
       deleteClippedPage id st = (Ok (), st)).
Proof.
  intros H.
  specialize (H (opened ∅ 1) VNaN []).
  assert (Hd : deleteClippedPage VNaN (opened ∅ 1) = (Err DataError, opened ∅ 1))
    by (vm_compute; reflexivity).
  rewrite Hd in H. discriminate H.
  - vm_compute; eauto.
  - vm_compute; reflexivity.
  - intros r Hr. inversion Hr.
Qed.

(** C5, amended.  In an initialized state whose store exists, for every id
    that is a valid key: [deleteClippedPage] succeeds; afterwards
    [getAllClippedPages] returns exactly the records it returned before
    whose id is different, each unchanged, so none with that id; and when
    no record had that id the state is left as it was. *)
Theorem deletePage_spec (st : state) (s : objectStore) (id : value) (k : key) :
  is_Some (db st) →
  objectStores (indexedDB st) !! STORE_NAME = Some s →
  wf_store s →
  to_key id = Some k →
  ∃ st' pages',
    deleteClippedPage id st = (Ok (), st')
    ∧ getAllClippedPages st = (Ok (getAll s), st)
    ∧ getAllClippedPages st' = (Ok pages', st')
    ∧ (∀ r, r ∈ pages' ↔ r ∈ getAll s ∧ get r "id" ≠ id)
    ∧ ((∀ r, r ∈ getAll s → get r "id" ≠ id) → st' = st).
Proof.
  intros Hdb Hs Hwf Hk.
  pose proof (to_key_value _ _ Hk) as ->.
  set (s' := {| records := base.delete k (records s); keygen := keygen s |}).
  exists (set_store s' st), (getAll s').
  assert (Hdel : deleteClippedPage (key_value k) st = (Ok (), set_store s' st)).
  { destruct Hdb as [c Hc]. unfold deleteClippedPage. rewrite Hc.
    apply transaction_Ok in Hs. rewrite Hs. unfold delete. now rewrite Hk. }
  split; [exact Hdel|].
  split; [now apply getAllClippedPages_ready|].
  split; [apply getAllClippedPages_ready; [exact Hdb | cbn; apply lookup_insert_eq]|].
  split.
  - intros r. rewrite !elem_of_getAll. subst s'. cbn [records]. split.
    + intros (k' & [Hne Hr]%lookup_delete_Some). split; [now exists k'|].
      rewrite (wf_store_id _ _ _ Hwf Hr). intros Heq.
      apply key_value_inj in Heq. congruence.
    + intros ((k' & Hr) & Hne). exists k'. apply lookup_delete_Some.
      split; [|assumption]. intros <-. apply Hne.
      apply (wf_store_id _ _ _ Hwf Hr).
  - intros Hnone.
    assert (Hk' : records s !! k = None).
    { destruct (records s !! k) as [r|] eqn:Hr; [|reflexivity].
      exfalso. apply (Hnone r); [apply elem_of_getAll; eauto|].
      apply (wf_store_id _ _ _ Hwf Hr). }
    assert (s' = s) as ->.
    { subst s'. rewrite delete_id by assumption. now destruct s. }
    now apply set_store_same.
Qed.

Lemma deletePage_spec_witness :
  ∃ st' pages',
    deleteClippedPage (VNum 7) (opened {[ KNum 1 := stored_sample ]} 2)
      = (Ok (), st')
    ∧ getAllClippedPages (opened {[ KNum 1 := stored_sample ]} 2)
      = (Ok (getAll {| records := {[ KNum 1 := stored_sample ]};
                       keygen := 2 |}),
         opened {[ KNum 1 := stored_sample ]} 2)
    ∧ getAllClippedPages st' = (Ok pages', st')
    ∧ (∀ r, r ∈ pages'
            ↔ r ∈ getAll {| records := {[ KNum 1 := stored_sample ]};
                            keygen := 2 |}
              ∧ get r "id" ≠ VNum 7)
    ∧ ((∀ r, r ∈ getAll {| records := {[ KNum 1 := stored_sample ]};
                           keygen := 2 |} → get r "id" ≠ VNum 7) →
       st' = opened {[ KNum 1 := stored_sample ]} 2).
Proof.
  apply (deletePage_spec
           (opened {[ KNum 1 := stored_sample ]} 2)
           {| records := {[ KNum 1 := stored_sample ]}; keygen := 2 |}
           (VNum 7) (KNum 7)).
  - vm_compute; eauto.
  - vm_compute; reflexivity.
  - repeat split; cbn [records keygen]; [|lia|].
    + intros k v [<- <-]%lookup_singleton_Some. reflexivity.
    + intros _ z [x [[= <-] _]%lookup_singleton_Some]. lia.
  - reflexivity.
Defined.

Section AddPage.

Implicit Types (st : state) (s : objectStore) (r x : object).

Lemma new_record_other now r words f :
  f ≠ "timestamp" → f ≠ "wordCount" → f ≠ "readingTime" →
  new_record now r words !! f = r !! f.
Proof.
  intros H1 H2 H3. unfold new_record.
  now rewrite !lookup_insert_ne by congruence.
Qed.

Lemma new_record_wordCount now r words :
  new_record now r words !! "wordCount" = Some (VNum (wordCount_of words)).
Proof.
  unfold new_record. rewrite lookup_insert_ne by discriminate.
  apply lookup_insert_eq.
Qed.

Lemma new_record_readingTime now r words :
  new_record now r words !! "readingTime" = Some (VNum (readingTime_of words)).
Proof. unfold new_record. apply lookup_insert_eq. Qed.

Lemma new_record_timestamp now r words :
  new_record now r words !! "timestamp"
  = Some (or_else (get r "timestamp") (VStr now)).
Proof.
  unfold new_record. rewrite !lookup_insert_ne by discriminate.
  apply lookup_insert_eq.
Qed.

(** What a successful [addClippedPage] did: the words were counted, the
    store was there, and [add] stored the record built from [pageData]. *)
Lemma addClippedPage_Ok now r st id st' :
  addClippedPage now r st = (Ok id, st') →
  ∃ words s s',
    is_Some (db st)
    ∧ words_of (or_else (get r "content") (VStr [])) = Some words
    ∧ objectStores (indexedDB st) !! STORE_NAME = Some s
    ∧ add (new_record now r words) s = Ok (id, s')
    ∧ st' = set_store s' st.
Proof.
  unfold addClippedPage. destruct (db st) as [c|] eqn:Hc; [|discriminate].
  destruct (words_of _) as [words|] eqn:Hw; [|discriminate].
  destruct (transaction st) as [s|] eqn:Ht; [|discriminate].
  destruct (add _ s) as [[k s']|] eqn:Ha; [|discriminate].
  intros [= <- <-]. exists words, s, s'.
  apply transaction_Ok in Ht. eauto 10.
Qed.

End AddPage.

(** C2 as it stands fails: when the store already holds a record with the
    title, url and content of [r] (the same page clipped before), a
    successful [addClippedPage(r)] leaves two such records, not one. *)
Lemma addPage_same_page_twice :
  ¬ (∀ (now : jsstring) (r : object) (st st' : state) (id : key)
       (pages' : list object),
       is_Some (db st) →
       is_Some (objectStores (indexedDB st) !! STORE_NAME) →
       wf_state st →
       is_Some (r !! "title") → is_Some (r !! "url") → is_Some (r !! "content") →
       r !! "id" = None → r !! "wordCount" = None → r !! "readingTime" = None →
       addClippedPage now r st = (Ok id, st') →
       getAllClippedPages st' = (Ok pages', st') →
       length (filter (same_page r) pages') = 1%nat).
Proof.
  intros H.
  set (st := opened {[ KNum 1 := stored_sample ]} 2).
  set (st' := (addClippedPage noon sample_page st).2).
  set (pages' := match (getAllClippedPages st').1 with Ok l => l | Err _ => [] end).
  specialize (H noon sample_page st st' (KNum 2) pages').
  assert (Hlen : length (filter (same_page sample_page) pages') = 2%nat)
    by (vm_compute; reflexivity).
  rewrite Hlen in H. discriminate H.
  - vm_compute; eauto.
  - vm_compute; eauto.
  - intros n s Hn.
    assert (n = STORE_NAME
            ∧ s = {| records := {[ KNum 1 := stored_sample ]}; keygen := 2 |})
      as [-> ->].
    { change (objectStores (indexedDB st))
        with ({[ STORE_NAME := {| records := {[ KNum 1 := stored_sample ]};
                                  keygen := 2 |} ]} : gmap string objectStore) in Hn.
      apply lookup_singleton_Some in Hn as [<- <-]. split; reflexivity. }
    repeat split; cbn [records keygen]; [|lia|].
    + intros k v [<- <-]%lookup_singleton_Some. reflexivity.
    + intros _ z [x [[= <-] _]%lookup_singleton_Some]. lia.
  - vm_compute; eauto.
  - vm_compute; eauto.
  - vm_compute; eauto.
  - reflexivity.
  - reflexivity.
  - reflexivity.
  - vm_compute; reflexivity.
  - vm_compute; reflexivity.
Qed.

(** C2, amended.  In an initialized state whose store exists, after a
    successful [addClippedPage(r)] the list [getAllClippedPages] returns is
    the earlier one with exactly one record more; that record has the title,
    url and content of [r], non-null [wordCount] and [readingTime], and the
    returned id, which no record had before.  Records that already had the
    title, url and content of [r] stay, so their number grows by one. *)
Theorem addPage_spec (now : jsstring) (r : object) (st st' : state)
    (s : objectStore) (id : key) :
  is_Some (db st) →
  objectStores (indexedDB st) !! STORE_NAME = Some s →
  wf_store s →
  addClippedPage now r st = (Ok id, st') →
  ∃ x pages',
    getAllClippedPages st = (Ok (getAll s), st)
    ∧ getAllClippedPages st' = (Ok pages', st')
    ∧ pages' ≡ₚ x :: getAll s
    ∧ same_page r x
    ∧ get x "id" = key_value id
    ∧ (∀ y, y ∈ getAll s → get y "id" ≠ key_value id)
    ∧ non_null (get x "wordCount")
    ∧ non_null (get x "readingTime")
    ∧ length (filter (same_page r) pages')
      = S (length (filter (same_page r) (getAll s))).
Proof.
  intros Hdb Hs Hwf Hadd.
  apply addClippedPage_Ok in Hadd as (words & s0 & s' & _ & Hw & Hs0 & Ha & ->).
  rewrite Hs in Hs0. injection Hs0 as <-.
  apply add_Ok in Ha as (Hfresh & x & Hrec & Hxid & Hx).
  assert (Hperm : getAll s' ≡ₚ x :: getAll s).
  { destruct s' as [recs' g']. cbn [records] in Hrec. subst recs'.
    now apply getAll_insert. }
  assert (Hsame : same_page r x).
  { unfold same_page.
    rewrite !Hx, !new_record_other by (unfold keyPath; discriminate). done. }
  exists x, (getAll s').
  split; [now apply getAllClippedPages_ready|].
  split; [apply getAllClippedPages_ready; [exact Hdb | cbn; apply lookup_insert_eq]|].
  split; [exact Hperm|]. split; [exact Hsame|].
  split; [unfold get; now rewrite (Hxid : x !! "id" = _)|].
  split.
  { intros y (k' & Hy)%elem_of_getAll.
    rewrite (wf_store_id _ _ _ Hwf Hy). intros Heq%key_value_inj. congruence. }
  split.
  { unfold get. rewrite Hx, new_record_wordCount by (unfold keyPath; discriminate).
    split; discriminate. }
  split.
  { unfold get. rewrite Hx, new_record_readingTime by (unfold keyPath; discriminate).
    split; discriminate. }
  rewrite Hperm. now rewrite filter_cons_True.
Qed.

Lemma addPage_spec_witness :
  ∃ x pages',
    getAllClippedPages (opened {[ KNum 1 := stored_sample ]} 2)
    = (Ok (getAll {| records := {[ KNum 1 := stored_sample ]}; keygen := 2 |}),
       opened {[ KNum 1 := stored_sample ]} 2)
    ∧ getAllClippedPages
        (addClippedPage noon sample_page (opened {[ KNum 1 := stored_sample ]} 2)).2
      = (Ok pages',
         (addClippedPage noon sample_page (opened {[ KNum 1 := stored_sample ]} 2)).2)
    ∧ pages' ≡ₚ x :: getAll {| records := {[ KNum 1 := stored_sample ]}; keygen := 2 |}
    ∧ same_page sample_page x
    ∧ get x "id" = VNum 2
    ∧ (∀ y, y ∈ getAll {| records := {[ KNum 1 := stored_sample ]}; keygen := 2 |} →
            get y "id" ≠ VNum 2)
    ∧ non_null (get x "wordCount")
    ∧ non_null (get x "readingTime")
    ∧ length (filter (same_page sample_page) pages')
      = S (length (filter (same_page sample_page)
                     (getAll {| records := {[ KNum 1 := stored_sample ]}; keygen := 2 |}))).
Proof.
  apply (addPage_spec noon sample_page
           (opened {[ KNum 1 := stored_sample ]} 2)
           (addClippedPage noon sample_page (opened {[ KNum 1 := stored_sample ]} 2)).2
           {| records := {[ KNum 1 := stored_sample ]}; keygen := 2 |}
           (KNum 2)).
  - vm_compute; eauto.
  - vm_compute; reflexivity.
  - repeat split; cbn [records keygen]; [|lia|].
    + intros k v [<- <-]%lookup_singleton_Some. reflexivity.
    + intros _ z [x [[= <-] _]%lookup_singleton_Some]. lia.
  - vm_compute; reflexivity.
Defined.

(** ** The upgrade scan *)

Section Backfill.

Implicit Types (m : gmap key object) (k : key) (d : object).

Lemma backfill_unfold d :
  backfill d
  = if missing_metadata d
    then match words_of (or_else (get d "content") (VStr [])) with
         | None => Err TypeError
         | Some words =>
             Ok (Some (<["readingTime" := VNum (readingTime_of words)]>
                         (<["wordCount" := VNum (wordCount_of words)]> d)))
         end
    else Ok None.
Proof. reflexivity. Qed.

Lemma cursor_update_Ok k d m m' :
  cursor_update k d m = Ok m' ↔ extract_key d = Ok (Some k) ∧ m' = <[k := d]> m.
Proof.
  unfold cursor_update. destruct (extract_key d) as [[k'|]|].
  - case_decide as Hd.
    + subst k'. split; [now intros [= <-] | now intros [_ ->]].
    + split; [discriminate | intros [[= ?] _]; contradiction].
  - split; [discriminate | intros [[=] _]].
  - split; [discriminate | intros [[=] _]].
Qed.

Lemma cursor_step_cases k d d' :
  cursor_step k d = Ok d' ↔
  (backfill d = Ok None ∧ d' = d)
  ∨ (backfill d = Ok (Some d') ∧ extract_key d' = Ok (Some k)).
Proof.
  unfold cursor_step. destruct (backfill d) as [[d1|]|].
  - destruct (cursor_update k d1 ∅) as [m1|] eqn:Hu.
    + apply cursor_update_Ok in Hu as [Hk _]. split.
      * intros [= <-]. right. now split.
      * intros [[[=] _]|[[= <-] _]]. reflexivity.
    + split; [discriminate|]. intros [[[=] _]|[[= <-] Hk]].
      assert (cursor_update k d1 ∅ = Ok (<[k := d1]> ∅)) as Hu'
          by now apply cursor_update_Ok.
      congruence.
  - split.
    + intros [= <-]. left. now split.
    + intros [[_ ->]|[[=] _]]. reflexivity.
  - split; [discriminate|]. intros [[[=] _]|[[=] _]].
Qed.

(** What a scan that ran to its end did to the store. *)
Lemma cursor_scan_result (l : list (key * object)) :
  ∀ m m',
    NoDup l.*1 →
    (∀ k d, (k, d) ∈ l → m !! k = Some d) →
    cursor_scan l m = Ok m' →
    (∀ k, k ∉ l.*1 → m' !! k = m !! k)
    ∧ (∀ k d, (k, d) ∈ l → ∃ d', cursor_step k d = Ok d' ∧ m' !! k = Some d').
Proof.
  induction l as [|[k d] l IH]; intros m m' Hnd Hin Hscan.
  - injection Hscan as <-. split; [reflexivity|]. intros k d H. inversion H.
  - cbn [fmap list_fmap fst] in Hnd. apply list.NoDup_cons in Hnd as [Hk Hnd].
    cbn [cursor_scan] in Hscan.
    destruct (backfill d) as [[d1|]|] eqn:Hb; [| |discriminate].
    + destruct (cursor_update k d1 m) as [m1|] eqn:Hu; [|discriminate].
      apply cursor_update_Ok in Hu as [Hk1 ->].
      destruct (IH (<[k := d1]> m) m' Hnd) as [Hout Hl]; [|assumption|].
      { intros k' d' H'. rewrite lookup_insert_ne.
        - apply Hin. now right.
        - intros <-. apply Hk. apply list_elem_of_fmap. now exists (k, d'). }
      split.
      * intros k' [Hne Hk']%not_elem_of_cons.
        rewrite (Hout _ Hk'). now apply lookup_insert_ne.
      * intros k' d' [[= -> ->]|H']%elem_of_cons; [|now apply Hl].
        exists d1. split; [apply cursor_step_cases; now right|].
        rewrite (Hout _ Hk). apply lookup_insert_eq.
    + destruct (IH m m' Hnd) as [Hout Hl]; [|assumption|].
      { intros k' d' H'. apply Hin. now right. }
      split.
      * intros k' [Hne Hk']%not_elem_of_cons. now apply Hout.
      * intros k' d' [[= -> ->]|H']%elem_of_cons; [|now apply Hl].
        exists d. split; [apply cursor_step_cases; now left|].
        rewrite (Hout _ Hk). apply Hin. now left.
Qed.

Lemma openCursor_scan_result m m' :
  openCursor_scan m = Ok m' →
  ∀ k, match m !! k with
       | None => m' !! k = None
       | Some d => ∃ d', cursor_step k d = Ok d' ∧ m' !! k = Some d'
       end.
Proof.
  intros Hscan k.
  destruct (cursor_scan_result (entries m) m m' (NoDup_entries_keys m)) as [Hout Hl];
    [|assumption|].
  { intros k' d'. apply elem_of_entries. }
  destruct (m !! k) as [d|] eqn:Hk.
  - apply Hl. now apply elem_of_entries.
  - rewrite Hout; [assumption|].
    intros ([k' d'] & -> & H')%list_elem_of_fmap.
    apply elem_of_entries in H'. cbn in Hk. congruence.
Qed.

(** The scan runs to its end when every visit does. *)
Lemma cursor_scan_total (l : list (key * object)) :
  (∀ k d, (k, d) ∈ l → ∃ d', cursor_step k d = Ok d') →
  ∀ m, ∃ m', cursor_scan l m = Ok m'.
Proof.
  induction l as [|[k d] l IH]; intros Hl m; [now exists m|].
  destruct (Hl k d) as [d' Hd]; [now left|].
  cbn [cursor_scan].
  apply cursor_step_cases in Hd as [[Hb ->]|[Hb Hk]]; rewrite Hb.
  - apply IH. intros k' d0 H'. apply Hl. now right.
  - rewrite (proj2 (cursor_update_Ok k d' m _) (conj Hk eq_refl)).
    apply IH. intros k' d0 H'. apply Hl. now right.
Qed.

(** A scan over records that a visit leaves as they are changes nothing. *)
Lemma cursor_scan_fixed (l : list (key * object)) m :
  (∀ k d, (k, d) ∈ l → m !! k = Some d ∧ cursor_step k d = Ok d) →
  cursor_scan l m = Ok m.
Proof.
  induction l as [|[k d] l IH]; intros Hl; [reflexivity|].
  destruct (Hl k d) as [Hm Hd]; [now left|].
  cbn [cursor_scan].
  apply cursor_step_cases in Hd as [[Hb _]|[Hb Hk]]; rewrite Hb.
  - apply IH. intros k' d0 H'. apply Hl. now right.
  - rewrite (proj2 (cursor_update_Ok k d m _) (conj Hk eq_refl)).
    rewrite insert_id by assumption.
    apply IH. intros k' d0 H'. apply Hl. now right.
Qed.

Lemma extract_key_insert_other f x d :
  f ≠ keyPath → extract_key (<[f := x]> d) = extract_key d.
Proof. intros Hf. unfold extract_key. now rewrite lookup_insert_ne. Qed.

(** A record that was visited once is left as it is by a second visit. *)
Lemma cursor_step_idem k d d' :
  cursor_step k d = Ok d' → cursor_step k d' = Ok d'.
Proof.
  intros [[Hb ->]|[Hb Hk]]%cursor_step_cases.
  - apply cursor_step_cases. now left.
  - apply cursor_step_cases.
    rewrite backfill_unfold in Hb.
    destruct (missing_metadata d); [|discriminate].
    destruct (words_of (or_else (get d "content") (VStr []))) as [words|] eqn:Hw;
      [|discriminate].
    injection Hb as <-.
    set (d1 := <["readingTime" := VNum (readingTime_of words)]>
                 (<["wordCount" := VNum (wordCount_of words)]> d)) in *.
    rewrite backfill_unfold.
    destruct (missing_metadata d1); [right | left; now split].
    split; [|assumption].
    assert (get d1 "content" = get d "content") as ->.
    { unfold get, d1. now rewrite !lookup_insert_ne by discriminate. }
    rewrite Hw. do 2 f_equal.
    rewrite (insert_id d1 "wordCount").
    + apply insert_id. apply lookup_insert_eq.
    + unfold d1. rewrite lookup_insert_ne by discriminate. apply lookup_insert_eq.
Qed.

(** The records a scan leaves are a fixed point of the scan. *)
Lemma openCursor_scan_settled m m' :
  openCursor_scan m = Ok m' → openCursor_scan m' = Ok m'.
Proof.
  intros Hscan. apply cursor_scan_fixed. intros k d' Hd'%elem_of_entries.
  split; [assumption|].
  pose proof (openCursor_scan_result _ _ Hscan k) as Hk.
  destruct (m !! k) as [d|]; [|congruence].
  destruct Hk as (d'' & Hstep & Hm'). rewrite Hd' in Hm'. injection Hm' as <-.
  now apply cursor_step_idem in Hstep.
Qed.

End Backfill.

(** C3.  For every content string [c]: the words that [addClippedPage] and
    the upgrade cursor count are the pieces of [c] trimmed and split on runs
    of whitespace, the empty ones dropped, which are the maximal runs of
    non-whitespace code units of [c]; [readingTime] is the ceiling of
    [wordCount / 200]; both are 0 when [c] is empty or only whitespace;
    "one two three" gives 3 and 1, and any 450 words joined by single
    spaces give 450 and 3.  The record that a successful [addClippedPage]
    stores for a page with content [c] has that [wordCount] and that
    [readingTime], and so has the record the upgrade cursor writes back for
    a record with content [c] whose metadata is missing. *)
Theorem metadata_derivation (c : jsstring) :
  words_of (or_else (VStr c) (VStr [])) = Some (filter_Boolean (split_ws (trim c)))
  ∧ filter_Boolean (split_ws (trim c)) = tokens c
  ∧ 200 * (readingTime_of (tokens c) - 1) < wordCount_of (tokens c)
      ≤ 200 * readingTime_of (tokens c)
  ∧ (forallb is_ws c = true →
     wordCount_of (tokens c) = 0 ∧ readingTime_of (tokens c) = 0)
  ∧ (c = lit "one two three" →
     wordCount_of (tokens c) = 3 ∧ readingTime_of (tokens c) = 1)
  ∧ (∀ l, c = join (lit " ") l → Forall word l → length l = 450%nat →
     wordCount_of (tokens c) = 450 ∧ readingTime_of (tokens c) = 3)
  ∧ (∀ now pageData st id st',
       get pageData "content" = VStr c →
       addClippedPage now pageData st = (Ok id, st') →
       ∃ s' x,
         objectStores (indexedDB st') !! STORE_NAME = Some s'
         ∧ records s' !! id = Some x
         ∧ get x "wordCount" = VNum (wordCount_of (tokens c))
         ∧ get x "readingTime" = VNum (readingTime_of (tokens c)))
  ∧ (∀ data,
       get data "content" = VStr c →
       missing_metadata data = true →
       ∃ data',
         backfill data = Ok (Some data')
         ∧ get data' "wordCount" = VNum (wordCount_of (tokens c))
         ∧ get data' "readingTime" = VNum (readingTime_of (tokens c))
         ∧ ∀ f, f ≠ "wordCount" → f ≠ "readingTime" → data' !! f = data !! f).
Proof.
  assert (Hwords : words_of (or_else (VStr c) (VStr [])) = Some (tokens c)).
  { unfold or_else. destruct c as [|x c]; [reflexivity|].
    cbn [truthy words_of]. now rewrite words_of_string_tokens. }
  split; [|split; [|split; [|split; [|split; [|split; [|split]]]]]].
  - unfold or_else. now destruct c as [|x c].
  - apply words_of_string_tokens.
  - apply ceil_div_200. unfold wordCount_of. lia.
  - intros Hc. now rewrite (tokens_ws_only _ Hc).
  - intros ->. split; reflexivity.
  - intros l -> Hl Hn. rewrite (tokens_join _ Hl).
    unfold readingTime_of, wordCount_of. rewrite Hn. split; reflexivity.
  - intros now pageData st id st' Hc
           (words & s & s' & _ & Hw & _ & Ha & ->)%addClippedPage_Ok.
    rewrite Hc, Hwords in Hw. injection Hw as <-.
    apply add_Ok in Ha as (_ & x & Hrec & _ & Hx).
    exists s', x. split; [cbn; apply lookup_insert_eq|].
    split; [rewrite Hrec; apply lookup_insert_eq|].
    unfold get.
    rewrite !Hx, new_record_wordCount, new_record_readingTime
      by (unfold keyPath; discriminate).
    split; reflexivity.
  - intros data Hc Hmiss. rewrite backfill_unfold, Hmiss, Hc, Hwords.
    eexists. split; [reflexivity|]. unfold get.
    rewrite lookup_insert_eq, lookup_insert_ne, lookup_insert_eq by discriminate.
    repeat split. intros f Hf1 Hf2. now rewrite !lookup_insert_ne by congruence.
Qed.

Lemma metadata_derivation_witness :
  forallb is_ws (lit "  ") = true
  ∧ wordCount_of (tokens (lit "  ")) = 0
  ∧ readingTime_of (tokens (lit "  ")) = 0
  ∧ wordCount_of (tokens (join (lit " ") (repeat (lit "w") 450))) = 450
  ∧ readingTime_of (tokens (join (lit " ") (repeat (lit "w") 450))) = 3
  ∧ (∃ s' x,
       objectStores (indexedDB (addClippedPage noon sample_page (opened ∅ 1)).2)
         !! STORE_NAME = Some s'
       ∧ records s' !! KNum 1 = Some x
       ∧ get x "wordCount" = VNum 3
       ∧ get x "readingTime" = VNum 1)
  ∧ (∃ data',
       backfill old_record = Ok (Some data')
       ∧ get data' "wordCount" = VNum 2
       ∧ get data' "readingTime" = VNum 1
       ∧ ∀ f, f ≠ "wordCount" → f ≠ "readingTime" → data' !! f = old_record !! f).
Proof.
  pose proof (metadata_derivation (lit "  ")) as (_ & _ & _ & Hws & _).
  pose proof (metadata_derivation (join (lit " ") (repeat (lit "w") 450)))
    as (_ & _ & _ & _ & _ & H450 & _).
  pose proof (metadata_derivation (lit "one two three"))
    as (_ & _ & _ & _ & _ & _ & Hadd & _).
  pose proof (metadata_derivation (lit "a b"))
    as (_ & _ & _ & _ & _ & _ & _ & Hfill).
  split; [reflexivity|].
  split; [apply Hws; reflexivity|].
  split; [apply Hws; reflexivity|].
  assert (H : wordCount_of (tokens (join (lit " ") (repeat (lit "w") 450))) = 450
              ∧ readingTime_of (tokens (join (lit " ") (repeat (lit "w") 450))) = 3).
  { apply (H450 (repeat (lit "w") 450) eq_refl).
    - apply Forall_forall. intros t Ht. apply repeat_spec in Ht as ->.
      split; [discriminate | reflexivity].
    - apply repeat_length. }
  split; [apply H|]. split; [apply H|]. split.
  - refine (Hadd noon sample_page (opened ∅ 1) (KNum 1)
              (addClippedPage noon sample_page (opened ∅ 1)).2 _ _).
    + reflexivity.
    + vm_compute; reflexivity.
  - refine (Hfill old_record _ _); reflexivity.
Defined.

(** C7.  The backfill scan is idempotent: a second scan over the records the
    first one left runs to its end and leaves every record as it is. *)
Theorem backfill_idempotent (m m' : gmap key object) :
  openCursor_scan m = Ok m' → openCursor_scan m' = Ok m'.
Proof. apply openCursor_scan_settled. Qed.

Lemma backfill_idempotent_witness :
  openCursor_scan pre_migration = Ok post_migration
  ∧ openCursor_scan post_migration = Ok post_migration.
Proof.
  assert (H : openCursor_scan pre_migration = Ok post_migration)
    by (vm_compute; reflexivity).
  split; [exact H | exact (backfill_idempotent _ _ H)].
Defined.

(** The upgrade as a whole is idempotent as well. *)
Lemma onupgradeneeded_idempotent (d d' : database) :
  onupgradeneeded d = Ok d' → onupgradeneeded d' = Ok d'.
Proof.
  unfold onupgradeneeded.
  destruct (objectStores d !! STORE_NAME) as [s|] eqn:Hs.
  - destruct (openCursor_scan (records s)) as [m|] eqn:Hm; [|discriminate].
    intros [= <-]. cbn [objectStores version]. rewrite lookup_insert_eq.
    cbn [records keygen]. rewrite (openCursor_scan_settled _ _ Hm).
    now rewrite insert_insert_eq.
  - intros [= <-]. now rewrite Hs.
Qed.

(** An installation of the previous version whose scan runs to its end is
    opened by [initDB] with the scanned records in the store. *)
Lemma initDB_legacy (recs m : gmap key object) (g : Z) :
  openCursor_scan recs = Ok m →
  initDB (legacy recs g)
  = (Ok (),
     {| db := Some {| conn_name := DB_NAME; conn_version := DB_VERSION |};
        indexedDB :=
          {| version := DB_VERSION;
             objectStores := {[ STORE_NAME := {| records := m; keygen := g |} ]} |} |}).
Proof.
  intros Hm. unfold initDB, legacy, onupgradeneeded.
  cbn [indexedDB version objectStores]. change (DB_VERSION <? 1) with false.
  change (1 <? DB_VERSION) with true. cbn match.
  rewrite lookup_singleton_eq. cbn [records keygen]. rewrite Hm.
  now rewrite insert_singleton_eq.
Qed.

(** C8.  Over records that carry their key in [id] and whose content, where
    metadata is missing, is a string or falsy, the scan runs to its end; it
    adds and removes no record; a record with a missing or falsy
    [wordCount] or [readingTime] gets both from its content (the empty
    string when the content is absent or falsy) and keeps every other
    property, [id] included; a record with both is left as it is. *)
Theorem backfill_frame (m : gmap key object) :
  (∀ k d, m !! k = Some d → d !! "id" = Some (key_value k)) →
  (∀ k d, m !! k = Some d → missing_metadata d = true →
          ∃ text, or_else (get d "content") (VStr []) = VStr text) →
  ∃ m',
    openCursor_scan m = Ok m'
    ∧ (∀ k, m !! k = None → m' !! k = None)
    ∧ ∀ k d, m !! k = Some d →
        ∃ d', m' !! k = Some d'
          ∧ (missing_metadata d = false → d' = d)
          ∧ (missing_metadata d = true →
             ∃ text, or_else (get d "content") (VStr []) = VStr text
               ∧ get d' "wordCount" = VNum (wordCount_of (tokens text))
               ∧ get d' "readingTime" = VNum (readingTime_of (tokens text))
               ∧ d' !! "id" = d !! "id"
               ∧ ∀ f, f ≠ "wordCount" → f ≠ "readingTime" → d' !! f = d !! f).
Proof.
  intros Hid Htext.
  assert (Hstep : ∀ k d, m !! k = Some d →
            (missing_metadata d = false ∧ cursor_step k d = Ok d)
            ∨ (missing_metadata d = true
               ∧ ∃ text, or_else (get d "content") (VStr []) = VStr text
                   ∧ cursor_step k d
                     = Ok (<["readingTime" := VNum (readingTime_of (tokens text))]>
                             (<["wordCount" := VNum (wordCount_of (tokens text))]> d)))).
  { intros k d Hd. destruct (missing_metadata d) eqn:Hmiss.
    - right. split; [reflexivity|].
      destruct (Htext _ _ Hd Hmiss) as [text Ht]. exists text. split; [assumption|].
      apply cursor_step_cases. right. rewrite backfill_unfold, Hmiss, Ht.
      cbn [words_of]. rewrite words_of_string_tokens. split; [reflexivity|].
      rewrite !extract_key_insert_other by (unfold keyPath; discriminate).
      apply extract_key_of_id. now apply Hid.
    - left. split; [reflexivity|]. apply cursor_step_cases. left.
      rewrite backfill_unfold, Hmiss. now split. }
  destruct (cursor_scan_total (entries m)) with (m := m) as [m' Hscan].
  { intros k d Hd%elem_of_entries.
    destruct (Hstep _ _ Hd) as [[_ H]|[_ (text & _ & H)]]; eauto. }
  exists m'. split; [exact Hscan|].
  pose proof (openCursor_scan_result _ _ Hscan) as Hres.
  split.
  - intros k Hk. specialize (Hres k). now rewrite Hk in Hres.
  - intros k d Hd. specialize (Hres k). rewrite Hd in Hres.
    destruct Hres as (d' & Hd' & Hm'). exists d'. split; [assumption|].
    destruct (Hstep _ _ Hd) as [[Hmiss H]|[Hmiss (text & Ht & H)]];
      rewrite H in Hd'; injection Hd' as <-.
    + split; [reflexivity | congruence].
    + split; [congruence|]. intros _. exists text. split; [assumption|].
      unfold get.
      rewrite lookup_insert_eq, lookup_insert_ne, lookup_insert_eq by discriminate.
      repeat split.
      * now rewrite !lookup_insert_ne by discriminate.
      * intros f Hf1 Hf2. now rewrite !lookup_insert_ne by congruence.
Qed.

Lemma backfill_frame_witness :
  openCursor_scan pre_migration = Ok post_migration
  ∧ (∃ d', post_migration !! KNum 1 = Some d'
           ∧ get d' "wordCount" = VNum 2 ∧ get d' "readingTime" = VNum 1
           ∧ d' !! "id" = old_record !! "id"
           ∧ ∀ f, f ≠ "wordCount" → f ≠ "readingTime" → d' !! f = old_record !! f)
  ∧ post_migration !! KNum 2 = Some kept_record.
Proof.
  destruct (backfill_frame pre_migration) as (m' & Hscan & _ & Hrec).
  - intros k d Hd. unfold pre_migration in Hd.
    apply lookup_insert_Some in Hd as [[<- <-]|[_ [<- <-]%lookup_singleton_Some]];
      reflexivity.
  - intros k d Hd. unfold pre_migration in Hd.
    apply lookup_insert_Some in Hd as [[<- <-]|[_ [<- <-]%lookup_singleton_Some]].
    + intros _. now exists (lit "a b").
    + discriminate.
  - assert (Hpost : openCursor_scan pre_migration = Ok post_migration)
      by (vm_compute; reflexivity).
    rewrite Hpost in Hscan. injection Hscan as <-.
    split; [exact Hpost|]. split.
    + destruct (Hrec (KNum 1) old_record eq_refl) as (d' & Hd' & _ & Hnew).
      destruct (Hnew eq_refl) as (text & Ht & Hwc & Hrt & Hi & Hf).
      injection Ht as <-. exists d'. repeat split; assumption.
    + destruct (Hrec (KNum 2) kept_record eq_refl) as (d' & Hd' & Hkeep & _).
      now rewrite <- (Hkeep eq_refl).
Defined.

(** ** The engine's invariant along the operations *)

Section Invariant.

Implicit Types (st : state) (s : objectStore).

Lemma scan_wf s (m : gmap key object) :
  wf_store s → openCursor_scan (records s) = Ok m →
  wf_store {| records := m; keygen := keygen s |}.
Proof.
  intros (Hid & Hpos & Hgen) Hscan.
  pose proof (openCursor_scan_result _ _ Hscan) as Hres.
  repeat split; cbn [records keygen]; [|assumption|].
  - intros k d' Hd'. specialize (Hres k).
    destruct (records s !! k) as [d|] eqn:Hd; [|congruence].
    destruct Hres as (d'' & Hstep & Hm). rewrite Hd' in Hm. injection Hm as <-.
    apply cursor_step_cases in Hstep as [[_ ->]|[_ Hk]].
    + now apply Hid.
    + now apply extract_key_Some.
  - intros Hle z [d' Hd']. apply (Hgen Hle). specialize (Hres (KNum z)).
    destruct (records s !! KNum z) as [d|]; [eauto | congruence].
Qed.

Lemma wf_state_set_store s st :
  wf_state st → wf_store s → wf_state (set_store s st).
Proof.
  intros Hst Hs n s'. cbn. rewrite lookup_insert. case_decide.
  - now intros [= <-].
  - apply Hst.
Qed.

Lemma wf_state_fresh : wf_state fresh.
Proof. intros n s. cbn. now rewrite lookup_empty. Qed.

(** Every operation keeps every store as the engine maintains it. *)
Lemma operations_keep_wf st :
  wf_state st →
  wf_state (initDB st).2
  ∧ (∀ now pageData, wf_state (addClippedPage now pageData st).2)
  ∧ wf_state (getAllClippedPages st).2
  ∧ (∀ id, wf_state (deleteClippedPage id st).2)
  ∧ wf_state (clearAllClippedPages st).2.
Proof.
  intros Hst. split; [|split; [|split; [|split]]].
  - unfold initDB.
    destruct (DB_VERSION <? version (indexedDB st)); [assumption|].
    destruct (version (indexedDB st) <? DB_VERSION); [|assumption].
    unfold onupgradeneeded. cbn [objectStores version].
    destruct (objectStores (indexedDB st) !! STORE_NAME) as [s|] eqn:Hs;
      [|assumption].
    destruct (openCursor_scan (records s)) as [m|] eqn:Hm; [|assumption].
    intros n s'. cbn. rewrite lookup_insert. case_decide.
    + intros [= <-]. apply scan_wf; [|assumption]. now apply (Hst STORE_NAME).
    + apply Hst.
  - intros now r. unfold addClippedPage.
    destruct (db st); [|assumption]. destruct (words_of _); [|assumption].
    destruct (transaction st) as [s|] eqn:Hs; [|assumption].
    destruct (add _ s) as [[k s']|] eqn:Ha; [|assumption].
    apply transaction_Ok in Hs.
    apply wf_state_set_store; [assumption|]. eapply add_wf; [|eassumption].
    now apply (Hst STORE_NAME).
  - unfold getAllClippedPages. destruct (db st); [|assumption].
    now destruct (transaction st).
  - intros id. unfold deleteClippedPage. destruct (db st); [|assumption].
    destruct (transaction st) as [s|] eqn:Hs; [|assumption].
    destruct (delete id s) as [s'|] eqn:Hd; [|assumption].
    apply transaction_Ok in Hs.
    apply wf_state_set_store; [assumption|]. eapply delete_wf; [|eassumption].
    now apply (Hst STORE_NAME).
  - unfold clearAllClippedPages. destruct (db st); [|assumption].
    destruct (transaction st) as [s|] eqn:Hs; [|assumption].
    apply transaction_Ok in Hs.
    apply wf_state_set_store; [assumption|]. apply clear_wf.
    now apply (Hst STORE_NAME).
Qed.

End Invariant.

(** C9 as it stands fails: a record that supplies the timestamp 0 (the epoch,
    as a number) is stored with the current time instead. *)
Lemma addPage_falsy_timestamp :
  ¬ (∀ (now : jsstring) (r : object) (st st' : state) (id : key)
       (pages : list object) (x : object) (t : value),
       addClippedPage now r st = (Ok id, st') →
       getAllClippedPages st' = (Ok pages, st') →
       x ∈ pages → get x "id" = key_value id →
       r !! "timestamp" = Some t →
       get x "timestamp" = t).
Proof.
  intros H.
  set (r := <["timestamp" := VNum 0]> sample_page).
  set (x := <["id" := VNum 1]>
              (new_record noon r [lit "one"; lit "two"; lit "three"])).
  specialize (H noon r (opened ∅ 1) (addClippedPage noon r (opened ∅ 1)).2
                (KNum 1) [x] x (VNum 0)).
  assert (Hx : get x "timestamp" = VStr noon) by (vm_compute; reflexivity).
  rewrite Hx in H. discriminate H.
  - vm_compute; reflexivity.
  - vm_compute; reflexivity.
  - apply list_elem_of_here.
  - reflexivity.
  - reflexivity.
Qed.

(** C9, amended.  The record a successful [addClippedPage] stores under the
    returned id has the [wordCount] and [readingTime] derived from the
    content of [pageData], whatever [pageData] says about them; its
    timestamp is the one of [pageData] when that is truthy, and the current
    time when it is absent or falsy. *)
Theorem addPage_stored (now : jsstring) (r : object) (st st' : state) (id : key) :
  addClippedPage now r st = (Ok id, st') →
  ∃ s' x text,
    objectStores (indexedDB st') !! STORE_NAME = Some s'
    ∧ records s' !! id = Some x
    ∧ x ∈ getAll s'
    ∧ or_else (get r "content") (VStr []) = VStr text
    ∧ get x "wordCount" = VNum (wordCount_of (tokens text))
    ∧ get x "readingTime" = VNum (readingTime_of (tokens text))
    ∧ (truthy (get r "timestamp") = true → get x "timestamp" = get r "timestamp")
    ∧ (truthy (get r "timestamp") = false → get x "timestamp" = VStr now).
Proof.
  intros (words & s & s' & _ & Hw & Hs & Ha & ->)%addClippedPage_Ok.
  apply add_Ok in Ha as (_ & x & Hrec & _ & Hx).
  destruct (or_else (get r "content") (VStr [])) as [| | | | |text] eqn:Ht;
    try discriminate.
  cbn [words_of] in Hw. rewrite words_of_string_tokens in Hw. injection Hw as <-.
  assert (Hlook : records s' !! id = Some x) by (rewrite Hrec; apply lookup_insert_eq).
  exists s', x, text.
  split; [cbn; apply lookup_insert_eq|].
  split; [exact Hlook|].
  split; [apply elem_of_getAll; eauto|].
  split; [reflexivity|].
  assert (Hget : ∀ f, f ≠ keyPath → get x f = get (new_record now r (tokens text)) f).
  { intros f Hf. unfold get. now rewrite Hx. }
  rewrite !Hget by (unfold keyPath; discriminate).
  split; [unfold get; now rewrite new_record_wordCount|].
  split; [unfold get; now rewrite new_record_readingTime|].
  assert (Hts : get (new_record now r (tokens text)) "timestamp"
                = or_else (get r "timestamp") (VStr now)).
  { unfold get at 1. now rewrite new_record_timestamp. }
  rewrite Hts. unfold or_else. split; intros ->; reflexivity.
Qed.

Lemma addPage_stored_witness :
  ∃ s' x text,
    objectStores
      (indexedDB
         (addClippedPage noon (<["wordCount" := VNum 99]> sample_page) (opened ∅ 1)).2)
      !! STORE_NAME = Some s'
    ∧ records s' !! KNum 1 = Some x
    ∧ x ∈ getAll s'
    ∧ or_else (get (<["wordCount" := VNum 99]> sample_page) "content") (VStr [])
      = VStr text
    ∧ get x "wordCount" = VNum (wordCount_of (tokens text))
    ∧ get x "readingTime" = VNum (readingTime_of (tokens text))
    ∧ (truthy (get (<["wordCount" := VNum 99]> sample_page) "timestamp") = true →
       get x "timestamp" = get (<["wordCount" := VNum 99]> sample_page) "timestamp")
    ∧ (truthy (get (<["wordCount" := VNum 99]> sample_page) "timestamp") = false →
       get x "timestamp" = VStr noon).
Proof.
  apply (addPage_stored noon (<["wordCount" := VNum 99]> sample_page) (opened ∅ 1)
           (addClippedPage noon (<["wordCount" := VNum 99]> sample_page) (opened ∅ 1)).2
           (KNum 1)).
  vm_compute; reflexivity.
Defined.

(** C10.  With a content that is absent or falsy, [addClippedPage] never
    throws on the content, and in an initialized state whose store exists
    and whose key generator has keys left it succeeds for a record without
    id: the stored record has [wordCount] 0 and [readingTime] 0, and its
    [content] property is as supplied (absent when absent). *)
Theorem addPage_without_content (now : jsstring) (r : object) :
  truthy (get r "content") = false →
  (∀ st, (addClippedPage now r st).1 ≠ Err TypeError)
  ∧ ∀ st s,
      is_Some (db st) →
      objectStores (indexedDB st) !! STORE_NAME = Some s →
      wf_store s → keygen s ≤ MAX_KEY →
      r !! "id" = None →
      ∃ id st' s' x,
        addClippedPage now r st = (Ok id, st')
        ∧ objectStores (indexedDB st') !! STORE_NAME = Some s'
        ∧ records s' !! id = Some x
        ∧ x ∈ getAll s'
        ∧ get x "wordCount" = VNum 0
        ∧ get x "readingTime" = VNum 0
        ∧ x !! "content" = r !! "content".
Proof.
  intros Hc. split.
  - intros st. unfold addClippedPage, or_else. rewrite Hc. cbn [words_of].
    destruct (db st); [|cbn; discriminate].
    unfold transaction.
    destruct (objectStores (indexedDB st) !! STORE_NAME) as [s|]; [|cbn; discriminate].
    destruct (add _ s) as [[k s']|e] eqn:Ha; [cbn; discriminate|].
    cbn. intros [= ->]. unfold add in Ha.
    destruct (extract_key _) as [[k|]|e] eqn:Ek.
    + destruct (records s !! k); discriminate.
    + destruct (MAX_KEY <? keygen s); [discriminate|].
      destruct (records s !! KNum (keygen s)); discriminate.
    + injection Ha as ->. unfold extract_key in Ek.
      destruct (_ !! keyPath) as [v|]; [|discriminate].
      destruct v; discriminate.
  - intros st s [c Hdb] Hs Hwf Hle Hid.
    set (data := new_record now r (words_of_string [])).
    assert (Hadd : addClippedPage now r st
                   = (Ok (KNum (keygen s)),
                      set_store
                        {| records := <[KNum (keygen s) := <[keyPath := VNum (keygen s)]> data]>
                                        (records s);
                           keygen := keygen s + 1 |} st)).
    { unfold addClippedPage, or_else. rewrite Hdb, Hc. cbn [words_of].
      apply transaction_Ok in Hs. rewrite Hs.
      fold data. rewrite (add_generated data s Hwf Hle); [reflexivity|].
      unfold extract_key, data, keyPath.
      now rewrite new_record_other, Hid by discriminate. }
    eexists _, _, _, (<[keyPath := VNum (keygen s)]> data).
    split; [exact Hadd|].
    split; [cbn; apply lookup_insert_eq|].
    split; [cbn; apply lookup_insert_eq|].
    split; [apply elem_of_getAll; eexists; cbn; apply lookup_insert_eq|].
    unfold get, data.
    rewrite !lookup_insert_ne by (unfold keyPath; discriminate).
    rewrite new_record_wordCount, new_record_readingTime.
    repeat split.
    now rewrite new_record_other by discriminate.
Qed.

Lemma addPage_without_content_witness :
  truthy (get (base.delete "content" sample_page) "content") = false
  ∧ (addClippedPage noon (base.delete "content" sample_page) fresh).1 ≠ Err TypeError
  ∧ ∃ id st' s' x,
      addClippedPage noon (base.delete "content" sample_page) (opened ∅ 1) = (Ok id, st')
      ∧ objectStores (indexedDB st') !! STORE_NAME = Some s'
      ∧ records s' !! id = Some x
      ∧ x ∈ getAll s'
      ∧ get x "wordCount" = VNum 0
      ∧ get x "readingTime" = VNum 0
      ∧ x !! "content" = base.delete "content" sample_page !! "content".
Proof.
  assert (Hc : truthy (get (base.delete "content" sample_page) "content") = false)
    by (vm_compute; reflexivity).
  destruct (addPage_without_content noon (base.delete "content" sample_page) Hc)
    as [Hno Hok].
  split; [exact Hc|]. split; [apply Hno|].
  apply (Hok (opened ∅ 1) {| records := ∅; keygen := 1 |}).
  - vm_compute; eauto.
  - vm_compute; reflexivity.
  - repeat split; cbn [records keygen]; [|lia|].
    + intros k v. now rewrite lookup_empty.
    + intros _ z [x Hx]. now rewrite lookup_empty in Hx.
  - vm_compute. discriminate.
  - reflexivity.
Defined.

(** * Further properties of the module *)

(** ** Opening the database *)

Section Opening.

Implicit Types (st : state) (s : objectStore) (m : gmap key object).

(** A scan that stops does so at a record whose visit throws. *)
Lemma cursor_scan_Err (l : list (key * object)) :
  ∀ m e, cursor_scan l m = Err e →
         ∃ k d e', (k, d) ∈ l ∧ cursor_step k d = Err e'.
Proof.
  induction l as [|[k d] l IH]; intros m e Hscan; [discriminate|].
  cbn [cursor_scan] in Hscan.
  destruct (cursor_step k d) as [d'|e'] eqn:Hstep.
  - assert (∃ m1, cursor_scan l m1 = Err e) as [m1 H1].
    { apply cursor_step_cases in Hstep as [[Hb _]|[Hb Hk]]; rewrite Hb in Hscan.
      - eauto.
      - rewrite (proj2 (cursor_update_Ok k d' m _) (conj Hk eq_refl)) in Hscan. eauto. }
    destruct (IH _ _ H1) as (k' & d0 & e' & Hin & He').
    exists k', d0, e'. split; [now right | assumption].
  - exists k, d, e'. split; [now left | assumption].
Qed.

Lemma cursor_scan_stops (l : list (key * object)) :
  ∀ m k d e', (k, d) ∈ l → cursor_step k d = Err e' → ∃ e, cursor_scan l m = Err e.
Proof.
  induction l as [|[k0 d0] l IH]; intros m k d e' Hin Hstep; [inversion Hin|].
  cbn [cursor_scan].
  destruct (cursor_step k0 d0) as [d1|e1] eqn:H0.
  - apply elem_of_cons in Hin as [[= -> ->]|Hin]; [congruence|].
    apply cursor_step_cases in H0 as [[Hb _]|[Hb Hk]]; rewrite Hb.
    + eapply IH; eassumption.
    + rewrite (proj2 (cursor_update_Ok k0 d1 m _) (conj Hk eq_refl)).
      eapply IH; eassumption.
  - unfold cursor_step in H0. destruct (backfill d0) as [[d1|]|e0]; [| |eauto].
    + destruct (cursor_update k0 d1 ∅) as [m1|e2] eqn:Hu; [discriminate|].
      assert (cursor_update k0 d1 m = Err e2) as ->; [|eauto].
      unfold cursor_update in *. destruct (extract_key d1) as [[k1|]|]; try assumption.
      now case_decide.
    + discriminate.
Qed.

(** The visit of a record that carries its key throws exactly when its
    metadata is missing and its content is truthy but not a string. *)
Lemma cursor_step_Err k d :
  d !! "id" = Some (key_value k) →
  (∃ e, cursor_step k d = Err e)
  ↔ missing_metadata d = true
    ∧ words_of (or_else (get d "content") (VStr [])) = None.
Proof.
  intros Hid. unfold cursor_step. rewrite backfill_unfold.
  destruct (missing_metadata d).
  - destruct (words_of _) as [words|].
    + assert (cursor_update k
                (<["readingTime" := VNum (readingTime_of words)]>
                   (<["wordCount" := VNum (wordCount_of words)]> d)) ∅
              = Ok (<[k := <["readingTime" := VNum (readingTime_of words)]>
                             (<["wordCount" := VNum (wordCount_of words)]> d)]> ∅)) as ->.
      { apply cursor_update_Ok. split; [|reflexivity].
        rewrite !extract_key_insert_other by (unfold keyPath; discriminate).
        now apply extract_key_of_id. }
      split; [intros [e [=]] | intros [_ [=]]].
    + split; [now intros _ | intros _; eauto].
  - split; [intros [e [=]] | intros [[=] _]].
Qed.

Lemma initDB_again st st' : initDB st = (Ok (), st') → initDB st' = (Ok (), st').
Proof.
  intros [Hdb Hver]%initDB_Ok. unfold initDB. rewrite Hver.
  change (DB_VERSION <? DB_VERSION) with false. cbn match.
  destruct st' as [c d]. cbn in *. now subst c.
Qed.

Lemma initDB_Err_cases st e st' :
  initDB st = (Err e, st') ↔
  st' = st
  ∧ ((e = VersionError ∧ DB_VERSION < version (indexedDB st))
     ∨ (e = AbortError ∧ version (indexedDB st) < DB_VERSION
        ∧ ∃ s e', objectStores (indexedDB st) !! STORE_NAME = Some s
                  ∧ openCursor_scan (records s) = Err e')).
Proof.
  unfold initDB, onupgradeneeded. cbn [objectStores version].
  destruct (Z.ltb_spec DB_VERSION (version (indexedDB st))) as [Hgt|Hle].
  - split.
    + intros [= <- <-]. split; [reflexivity|]. left. now split.
    + intros [-> [[-> _]|[_ [Hlt _]]]]; [reflexivity | lia].
  - destruct (Z.ltb_spec (version (indexedDB st)) DB_VERSION) as [Hlt|Hge].
    + destruct (objectStores (indexedDB st) !! STORE_NAME) as [s|] eqn:Hs.
      * destruct (openCursor_scan (records s)) as [m|e0] eqn:Hm.
        -- split; [discriminate|].
           intros [_ [[_ ?]|[_ [_ (s' & e' & [= <-] & He')]]]]; [lia | congruence].
        -- split.
           ++ intros [= <- <-]. split; [reflexivity|]. right.
              split; [reflexivity|]. split; [assumption|]. eauto.
           ++ intros [-> [[_ ?]|[-> _]]]; [lia | reflexivity].
      * split; [discriminate|].
        intros [_ [[_ ?]|[_ [_ (s' & e' & [=] & _)]]]]. lia.
    + split; [discriminate|]. intros [_ [[_ ?]|[_ [? _]]]]; lia.
Qed.

End Opening.

(** X1.  [initDB] is idempotent: once it has succeeded, calling it again
    succeeds and leaves the connection and the database as they are (the
    scan is not run a second time). *)
Theorem initDB_idempotent (st st' : state) :
  initDB st = (Ok (), st') → initDB st' = (Ok (), st').
Proof. apply initDB_again. Qed.

Lemma initDB_idempotent_witness :
  initDB (legacy pre_migration 3) = (Ok (), opened pre_migration 3)
  ∧ initDB (opened pre_migration 3) = (Ok (), opened pre_migration 3).
Proof.
  assert (H : initDB (legacy pre_migration 3) = (Ok (), opened pre_migration 3))
    by (vm_compute; reflexivity).
  split; [exact H | exact (initDB_idempotent _ _ H)].
Defined.

(** X2.  [initDB] rejects in exactly two cases, and then leaves [db] and the
    database as they were: with a VersionError when the stored version is
    above 2, and with an AbortError when the stored version is below 2, the
    store exists and the scan of its records throws. *)
Theorem initDB_rejects (st st' : state) (e : error) :
  initDB st = (Err e, st') ↔
  st' = st
  ∧ ((e = VersionError ∧ DB_VERSION < version (indexedDB st))
     ∨ (e = AbortError ∧ version (indexedDB st) < DB_VERSION
        ∧ ∃ s e', objectStores (indexedDB st) !! STORE_NAME = Some s
                  ∧ openCursor_scan (records s) = Err e')).
Proof. apply initDB_Err_cases. Qed.

(** X3.  Over records that carry their key in [id], the upgrade scan throws
    exactly when some record lacks metadata and has a content that is truthy
    but not a string (on which [text.trim] is not a function); one such
    record stops the upgrade of the whole store. *)
Theorem upgrade_scan_throws (m : gmap key object) :
  (∀ k d, m !! k = Some d → d !! "id" = Some (key_value k)) →
  (∃ e, openCursor_scan m = Err e)
  ↔ ∃ k d, m !! k = Some d
           ∧ missing_metadata d = true
           ∧ words_of (or_else (get d "content") (VStr [])) = None.
Proof.
  intros Hid. split.
  - intros [e (k & d & e' & Hin & Hstep)%cursor_scan_Err].
    apply elem_of_entries in Hin. exists k, d. split; [assumption|].
    apply (cursor_step_Err k d (Hid _ _ Hin)). eauto.
  - intros (k & d & Hd & Hbad).
    apply (cursor_step_Err k d (Hid _ _ Hd)) in Hbad as [e' Hstep].
    apply (cursor_scan_stops _ m k d e'); [now apply elem_of_entries | assumption].
Qed.

Lemma upgrade_scan_throws_witness :
  ∃ e, openCursor_scan
         {[ KNum 1 := old_record;
            KNum 2 := ({[ "id" := VNum 2; "content" := VNum 42 ]} : object) ]}
       = Err e.
Proof.
  apply upgrade_scan_throws.
  - intros k d Hd.
    apply lookup_insert_Some in Hd as [[<- <-]|[_ [<- <-]%lookup_singleton_Some]];
      reflexivity.
  - exists (KNum 2), ({[ "id" := VNum 2; "content" := VNum 42 ]} : object).
    repeat split; vm_compute; reflexivity.
Defined.

Lemma initDB_rejects_witness :
  initDB (legacy {[ KNum 1 := old_record;
                    KNum 2 := ({[ "id" := VNum 2; "content" := VNum 42 ]} : object) ]} 3)
  = (Err AbortError,
     legacy {[ KNum 1 := old_record;
               KNum 2 := ({[ "id" := VNum 2; "content" := VNum 42 ]} : object) ]} 3).
Proof.
  apply initDB_rejects. split; [reflexivity|]. right.
  split; [reflexivity|]. split; [reflexivity|].
  eexists _, TypeError. split; [vm_compute; reflexivity|]. vm_compute. reflexivity.
Defined.

(** ** Rejections *)

(** X4.  A call that rejects changes nothing: neither [db] nor the database.
    [getAllClippedPages] changes nothing in any case. *)
Theorem rejected_call_changes_nothing (st : state) :
  (∀ e st', initDB st = (Err e, st') → st' = st)
  ∧ (∀ now pageData e st', addClippedPage now pageData st = (Err e, st') → st' = st)
  ∧ (∀ res st', getAllClippedPages st = (res, st') → st' = st)
  ∧ (∀ id e st', deleteClippedPage id st = (Err e, st') → st' = st)
  ∧ (∀ e st', clearAllClippedPages st = (Err e, st') → st' = st).
Proof.
  split; [|split; [|split; [|split]]].
  - intros e st'. apply initDB_Err.
  - intros now r e st'. unfold addClippedPage.
    destruct (db st); [|now intros [= _ <-]].
    destruct (words_of _); [|now intros [= _ <-]].
    destruct (transaction st) as [s|]; [|now intros [= _ <-]].
    destruct (add _ s) as [[k s']|]; [discriminate | now intros [= _ <-]].
  - intros res st'. unfold getAllClippedPages.
    destruct (db st); [|now intros [= _ <-]].
    destruct (transaction st); now intros [= _ <-].
  - intros id e st'. unfold deleteClippedPage.
    destruct (db st); [|now intros [= _ <-]].
    destruct (transaction st) as [s|]; [|now intros [= _ <-]].
    destruct (delete id s); [discriminate | now intros [= _ <-]].
  - intros e st'. unfold clearAllClippedPages.
    destruct (db st); [|now intros [= _ <-]].
    destruct (transaction st); [discriminate | now intros [= _ <-]].
Qed.

(** X5.  In an initialized state, a record whose content is truthy but not a
    string makes [addClippedPage] reject with a TypeError before any
    transaction is opened: whether or not the store exists, nothing is
    stored. *)
Theorem addPage_content_not_a_string (now : jsstring) (pageData : object) (st : state) :
  is_Some (db st) →
  truthy (get pageData "content") = true →
  (∀ text, get pageData "content" ≠ VStr text) →
  addClippedPage now pageData st = (Err TypeError, st).
Proof.
  intros [c Hc] Ht Hns. unfold addClippedPage, or_else. rewrite Hc, Ht.
  destruct (get pageData "content") as [| | | | |text]; try reflexivity.
  now destruct (Hns text).
Qed.

Lemma addPage_content_not_a_string_witness :
  addClippedPage noon (<["content" := VNum 42]> sample_page) (opened ∅ 1)
  = (Err TypeError, opened ∅ 1).
Proof.
  apply addPage_content_not_a_string.
  - vm_compute; eauto.
  - vm_compute; reflexivity.
  - intros text. vm_compute. discriminate.
Defined.

(** X6.  In an initialized state whose store exists, for a record whose
    content can be counted: an [id] that a stored record already has makes
    [addClippedPage] reject with a ConstraintError, and an [id] that is
    neither undefined nor a valid key (null, a boolean, NaN) makes it reject
    with a DataError; the store is left as it was. *)
Theorem addPage_bad_id (now : jsstring) (pageData : object) (st : state)
    (s : objectStore) :
  is_Some (db st) →
  objectStores (indexedDB st) !! STORE_NAME = Some s →
  is_Some (words_of (or_else (get pageData "content") (VStr []))) →
  (∀ k, pageData !! "id" = Some (key_value k) → is_Some (records s !! k) →
        addClippedPage now pageData st = (Err ConstraintError, st))
  ∧ (∀ v, pageData !! "id" = Some v → v ≠ VUndef → to_key v = None →
          addClippedPage now pageData st = (Err DataError, st)).
Proof.
  intros [c Hc] Hs%transaction_Ok [words Hw].
  assert (Hid : ∀ v, pageData !! "id" = Some v →
                     new_record now pageData words !! keyPath = Some v).
  { intros v Hv. unfold keyPath. now rewrite new_record_other by discriminate. }
  split.
  - intros k Hk [x Hx]. unfold addClippedPage. rewrite Hc, Hw, Hs.
    unfold add. rewrite (extract_key_of_id _ k (Hid _ Hk)). now rewrite Hx.
  - intros v Hv Hu Hnk. unfold addClippedPage. rewrite Hc, Hw, Hs.
    unfold add, extract_key. rewrite (Hid _ Hv), Hnk. now destruct v.
Qed.

Lemma addPage_bad_id_witness :
  addClippedPage noon (<["id" := VNum 1]> sample_page)
    (opened {[ KNum 1 := stored_sample ]} 2)
  = (Err ConstraintError, opened {[ KNum 1 := stored_sample ]} 2)
  ∧ addClippedPage noon (<["id" := VNull]> sample_page)
      (opened {[ KNum 1 := stored_sample ]} 2)
    = (Err DataError, opened {[ KNum 1 := stored_sample ]} 2).
Proof.
  split.
  - apply (addPage_bad_id noon (<["id" := VNum 1]> sample_page)
             (opened {[ KNum 1 := stored_sample ]} 2)
             {| records := {[ KNum 1 := stored_sample ]}; keygen := 2 |}) with (k := KNum 1).
    + vm_compute; eauto.
    + vm_compute; reflexivity.
    + vm_compute; eauto.
    + reflexivity.
    + vm_compute; eauto.
  - apply (addPage_bad_id noon (<["id" := VNull]> sample_page)
             (opened {[ KNum 1 := stored_sample ]} 2)
             {| records := {[ KNum 1 := stored_sample ]}; keygen := 2 |}) with (v := VNull).
    + vm_compute; eauto.
    + vm_compute; reflexivity.
    + vm_compute; eauto.
    + reflexivity.
    + discriminate.
    + reflexivity.
Defined.

(** X7.  In an initialized state whose store exists, an [id] supplied by the
    caller that is a valid key no stored record has is taken as the key:
    [addClippedPage] returns it and stores the record built from [pageData]
    under it, without consulting the key generator. *)
Theorem addPage_supplied_id (now : jsstring) (pageData : object) (st : state)
    (s : objectStore) (k : key) (words : list jsstring) :
  is_Some (db st) →
  objectStores (indexedDB st) !! STORE_NAME = Some s →
  words_of (or_else (get pageData "content") (VStr [])) = Some words →
  pageData !! "id" = Some (key_value k) →
  records s !! k = None →
  ∃ st' s',
    addClippedPage now pageData st = (Ok k, st')
    ∧ objectStores (indexedDB st') !! STORE_NAME = Some s'
    ∧ records s' = <[k := new_record now pageData words]> (records s)
    ∧ get (new_record now pageData words) "id" = key_value k.
Proof.
  intros [c Hc] Hs%transaction_Ok Hw Hk Hfree.
  assert (Hid : new_record now pageData words !! keyPath = Some (key_value k)).
  { unfold keyPath. now rewrite new_record_other by discriminate. }
  eexists _, _. split; [|split; [|split]].
  - unfold addClippedPage. rewrite Hc, Hw, Hs. unfold add.
    rewrite (extract_key_of_id _ k Hid), Hfree. reflexivity.
  - cbn. apply lookup_insert_eq.
  - reflexivity.
  - unfold get. now rewrite (Hid : _ !! "id" = _).
Qed.

Lemma addPage_supplied_id_witness :
  ∃ st' s',
    addClippedPage noon (<["id" := VStr (lit "mine")]> sample_page)
      (opened {[ KNum 1 := stored_sample ]} 2)
    = (Ok (KStr (lit "mine")), st')
    ∧ objectStores (indexedDB st') !! STORE_NAME = Some s'
    ∧ records s'
      = <[KStr (lit "mine") :=
            new_record noon (<["id" := VStr (lit "mine")]> sample_page)
              [lit "one"; lit "two"; lit "three"]]> {[ KNum 1 := stored_sample ]}
    ∧ get (new_record noon (<["id" := VStr (lit "mine")]> sample_page)
             [lit "one"; lit "two"; lit "three"]) "id" = VStr (lit "mine").
Proof.
  refine (addPage_supplied_id noon (<["id" := VStr (lit "mine")]> sample_page)
            (opened {[ KNum 1 := stored_sample ]} 2)
            {| records := {[ KNum 1 := stored_sample ]}; keygen := 2 |}
            (KStr (lit "mine")) [lit "one"; lit "two"; lit "three"] _ _ _ _ _).
  - vm_compute; eauto.
  - vm_compute; reflexivity.
  - vm_compute; reflexivity.
  - reflexivity.
  - vm_compute; reflexivity.
Defined.

(** ** Sequences of calls *)

Section Calls.

Implicit Types (st : state) (s : objectStore) (c : call) (cs : list call).

Lemma run_cons c cs st : run (c :: cs) st = run cs (step c st).
Proof. reflexivity. Qed.

(** What one call can do to the store: nothing, the upgrade scan, one [add]
    of a record built by [addClippedPage], one [delete], or [clear]. *)
Lemma step_store c st s :
  objectStores (indexedDB st) !! STORE_NAME = Some s →
  ∃ s', objectStores (indexedDB (step c st)) !! STORE_NAME = Some s'
        ∧ (s' = s
           ∨ (c = CInit ∧ version (indexedDB st) < DB_VERSION
              ∧ ∃ m, openCursor_scan (records s) = Ok m
                     ∧ s' = {| records := m; keygen := keygen s |})
           ∨ (∃ now r words k, c = CAdd now r
                               ∧ add (new_record now r words) s = Ok (k, s'))
           ∨ (∃ q, c = CDelete q ∧ delete q s = Ok s')
           ∨ (c = CClear ∧ s' = clear s)).
Proof.
  intros Hs. pose proof (proj2 (transaction_Ok st s) Hs) as Ht.
  destruct c as [|now r| |q|]; cbn [step].
  - unfold initDB, onupgradeneeded. cbn [objectStores version].
    destruct (DB_VERSION <? version (indexedDB st)); [eauto|].
    destruct (Z.ltb_spec (version (indexedDB st)) DB_VERSION); [|eauto].
    rewrite Hs. destruct (openCursor_scan (records s)) as [m|] eqn:Hm; [|eauto].
    eexists. split; [cbn; apply lookup_insert_eq|]. right. left. eauto.
  - unfold addClippedPage. destruct (db st); [|eauto].
    destruct (words_of _) as [words|]; [|eauto]. rewrite Ht.
    destruct (add _ s) as [[k s']|] eqn:Ha; [|eauto].
    exists s'. split; [cbn; apply lookup_insert_eq|]. right. right. left. eauto 10.
  - unfold getAllClippedPages. destruct (db st); [|eauto]. rewrite Ht. eauto.
  - unfold deleteClippedPage. destruct (db st); [|eauto]. rewrite Ht.
    destruct (delete q s) as [s'|] eqn:Hd; [|eauto].
    exists s'. split; [cbn; apply lookup_insert_eq|]. right. right. right. left. eauto.
  - unfold clearAllClippedPages. destruct (db st); [|eauto]. rewrite Ht.
    exists (clear s). split; [cbn; apply lookup_insert_eq|]. repeat right. eauto.
Qed.

(** A call changes no store but [clippedPages], and that one only when it is
    there. *)
Lemma step_other_stores c st n :
  n ≠ STORE_NAME ∨ objectStores (indexedDB st) !! STORE_NAME = None →
  objectStores (indexedDB (step c st)) !! n = objectStores (indexedDB st) !! n.
Proof.
  intros Hn.
  assert (Hset : ∀ s s0, transaction st = Ok s →
                         objectStores (indexedDB (set_store s0 st)) !! n
                         = objectStores (indexedDB st) !! n).
  { intros s s0 Hs%transaction_Ok. cbn. destruct Hn as [Hn|Hn]; [|congruence].
    now apply lookup_insert_ne. }
  destruct c as [|now r| |q|]; cbn [step].
  - unfold initDB, onupgradeneeded. cbn [objectStores version].
    destruct (DB_VERSION <? version (indexedDB st)); [reflexivity|].
    destruct (version (indexedDB st) <? DB_VERSION); [|reflexivity].
    destruct (objectStores (indexedDB st) !! STORE_NAME) as [s|] eqn:Hs; [|reflexivity].
    destruct (openCursor_scan (records s)); [|reflexivity].
    cbn. destruct Hn as [Hn|Hn]; [|congruence]. now apply lookup_insert_ne.
  - unfold addClippedPage. destruct (db st); [|reflexivity].
    destruct (words_of _); [|reflexivity].
    destruct (transaction st) as [s|] eqn:Ht; [|reflexivity].
    destruct (add _ s) as [[k s']|]; [|reflexivity]. exact (Hset s s' eq_refl).
  - unfold getAllClippedPages. destruct (db st); [|reflexivity].
    now destruct (transaction st).
  - unfold deleteClippedPage. destruct (db st); [|reflexivity].
    destruct (transaction st) as [s|] eqn:Ht; [|reflexivity].
    destruct (delete q s) as [s'|]; [|reflexivity]. exact (Hset s s' eq_refl).
  - unfold clearAllClippedPages. destruct (db st); [|reflexivity].
    destruct (transaction st) as [s|] eqn:Ht; [|reflexivity].
    exact (Hset s (clear s) eq_refl).
Qed.

Lemma step_store_names c st n :
  is_Some (objectStores (indexedDB (step c st)) !! n)
  ↔ is_Some (objectStores (indexedDB st) !! n).
Proof.
  destruct (decide (n = STORE_NAME)) as [->|Hn].
  - destruct (objectStores (indexedDB st) !! STORE_NAME) as [s|] eqn:Hs.
    + destruct (step_store c st s Hs) as (s' & -> & _). split; eauto.
    + rewrite step_other_stores by now right. now rewrite Hs.
  - rewrite step_other_stores by now left. reflexivity.
Qed.

Lemma step_db c st : is_Some (db st) → is_Some (db (step c st)).
Proof.
  intros [c0 Hc]. destruct c as [|now r| |q|]; cbn [step].
  - destruct (initDB st) as [[[]|e] st'] eqn:Hi; cbn [snd].
    + apply initDB_Ok in Hi as [-> _]. eauto.
    + apply initDB_Err in Hi as ->. eauto.
  - unfold addClippedPage. rewrite Hc.
    destruct (words_of _); [|cbn [snd]; eauto].
    destruct (transaction st) as [s|]; [|cbn [snd]; eauto].
    destruct (add _ s) as [[k s']|]; cbn [snd]; eauto.
  - unfold getAllClippedPages. rewrite Hc.
    destruct (transaction st); cbn [snd]; eauto.
  - unfold deleteClippedPage. rewrite Hc.
    destruct (transaction st) as [s|]; [|cbn [snd]; eauto].
    destruct (delete q s); cbn [snd]; eauto.
  - unfold clearAllClippedPages. rewrite Hc.
    destruct (transaction st); cbn [snd]; eauto.
Qed.

Lemma run_db cs : ∀ st, is_Some (db st) → is_Some (db (run cs st)).
Proof.
  induction cs as [|c cs IH]; intros st Hdb; [assumption|].
  rewrite run_cons. apply IH. now apply step_db.
Qed.

Lemma run_store_names cs n :
  ∀ st, is_Some (objectStores (indexedDB (run cs st)) !! n)
        ↔ is_Some (objectStores (indexedDB st) !! n).
Proof.
  induction cs as [|c cs IH]; intros st; [reflexivity|].
  rewrite run_cons, IH. apply step_store_names.
Qed.

End Calls.

(** X8.  No call creates or removes an object store: after any sequence of
    calls the database has a store of a given name exactly when it had one
    before.  In particular the store [clippedPages] is never created. *)
Theorem stores_never_change (cs : list call) (st : state) (n : string) :
  is_Some (objectStores (indexedDB (run cs st)) !! n)
  ↔ is_Some (objectStores (indexedDB st) !! n).
Proof. apply run_store_names. Qed.

(** X9.  After [initDB] on a fresh install, and whatever calls follow, every
    operation rejects: [getAllClippedPages], [deleteClippedPage] and
    [clearAllClippedPages] with a NotFoundError, [addClippedPage] with a
    NotFoundError or, for a content that is not a string, a TypeError.
    Calling [initDB] again does not help. *)
Theorem fresh_install_never_works (cs : list call) :
  getAllClippedPages (run (CInit :: cs) fresh)
  = (Err NotFoundError, run (CInit :: cs) fresh)
  ∧ (∀ id, deleteClippedPage id (run (CInit :: cs) fresh)
           = (Err NotFoundError, run (CInit :: cs) fresh))
  ∧ clearAllClippedPages (run (CInit :: cs) fresh)
    = (Err NotFoundError, run (CInit :: cs) fresh)
  ∧ (∀ now pageData,
        addClippedPage now pageData (run (CInit :: cs) fresh)
        = (Err NotFoundError, run (CInit :: cs) fresh)
        ∨ addClippedPage now pageData (run (CInit :: cs) fresh)
          = (Err TypeError, run (CInit :: cs) fresh)).
Proof.
  set (st := run (CInit :: cs) fresh).
  assert (Hdb : is_Some (db st)).
  { unfold st. rewrite run_cons. apply run_db. cbn. eauto. }
  assert (Hs : objectStores (indexedDB st) !! STORE_NAME = None).
  { apply eq_None_not_Some. unfold st. rewrite run_store_names.
    cbn. rewrite lookup_empty. now intros [? ?]. }
  destruct Hdb as [c Hc].
  unfold getAllClippedPages, deleteClippedPage, clearAllClippedPages,
    addClippedPage, transaction.
  rewrite Hc, Hs. repeat split.
  intros now r. destruct (words_of _); [now left | now right].
Qed.

(** X10.  Once [db] is set it stays set: after a successful [initDB] and any
    sequence of calls, no operation rejects with the "Database not
    initialized" error. *)
Theorem connection_stays (st : state) (cs : list call) :
  is_Some (db st) →
  is_Some (db (run cs st))
  ∧ (∀ now pageData, (addClippedPage now pageData (run cs st)).1 ≠ Err NotInitialized)
  ∧ (getAllClippedPages (run cs st)).1 ≠ Err NotInitialized
  ∧ (∀ id, (deleteClippedPage id (run cs st)).1 ≠ Err NotInitialized)
  ∧ (clearAllClippedPages (run cs st)).1 ≠ Err NotInitialized.
Proof.
  intros Hdb%(run_db cs). split; [assumption|]. destruct Hdb as [c Hc].
  unfold addClippedPage, getAllClippedPages, deleteClippedPage,
    clearAllClippedPages, transaction.
  rewrite Hc. repeat split.
  - intros now r. destruct (words_of _); [|cbn; discriminate].
    destruct (objectStores _ !! STORE_NAME) as [s|]; [|cbn; discriminate].
    destruct (add _ s) as [[k s']|e] eqn:Ha; [cbn; discriminate|].
    cbn. intros [= ->]. unfold add in Ha.
    destruct (extract_key _) as [[k|]|e] eqn:Ek.
    + destruct (records s !! k); discriminate.
    + destruct (MAX_KEY <? keygen s); [discriminate|].
      destruct (records s !! KNum (keygen s)); discriminate.
    + injection Ha as ->. unfold extract_key in Ek.
      destruct (_ !! keyPath) as [v|]; [|discriminate]. destruct v; discriminate.
  - destruct (objectStores _ !! STORE_NAME); cbn; discriminate.
  - intros id. destruct (objectStores _ !! STORE_NAME) as [s|]; [|cbn; discriminate].
    unfold delete. destruct (to_key id); cbn; discriminate.
  - destruct (objectStores _ !! STORE_NAME); cbn; discriminate.
Qed.

Lemma connection_stays_witness :
  is_Some (db (run [CClear; CAdd noon sample_page; CDelete (VNum 1); CInit]
                 (opened {[ KNum 1 := stored_sample ]} 2)))
  ∧ (getAllClippedPages
       (run [CClear; CAdd noon sample_page; CDelete (VNum 1); CInit]
          (opened {[ KNum 1 := stored_sample ]} 2))).1 ≠ Err NotInitialized.
Proof.
  assert (Hdb : is_Some (db (opened {[ KNum 1 := stored_sample ]} 2)))
    by (vm_compute; eauto).
  destruct (connection_stays _
              [CClear; CAdd noon sample_page; CDelete (VNum 1); CInit] Hdb)
    as (H1 & _ & H2 & _).
  split; assumption.
Defined.

(** ** Identifiers *)

Section Identifiers.

Implicit Types (st : state) (s : objectStore) (c : call) (cs : list call).

(** The key generator is past [z], or exhausted. *)
Local Abbreviation above z g := (z < g ∨ MAX_KEY < g).

Lemma add_above v s k s' z :
  add v s = Ok (k, s') → above z (keygen s) → above z (keygen s').
Proof.
  unfold add. destruct (extract_key v) as [[k0|]|]; [| |discriminate].
  - destruct (records s !! k0); [discriminate|]. intros [= <- <-]. cbn [keygen].
    unfold bump, MAX_KEY in *. destruct k0 as [z0|]; [|tauto].
    destruct (Z.leb_spec (keygen s) z0); lia.
  - destruct (MAX_KEY <? keygen s); [discriminate|].
    destruct (records s !! KNum (keygen s)); [discriminate|].
    intros [= <- <-]. cbn [keygen]. lia.
Qed.

Lemma add_numeric_above v s z s' :
  add v s = Ok (KNum z, s') → above z (keygen s').
Proof.
  unfold add. destruct (extract_key v) as [[k0|]|]; [| |discriminate].
  - destruct (records s !! k0); [discriminate|]. intros [= -> <-]. cbn [keygen].
    unfold bump, MAX_KEY. destruct (Z.leb_spec (keygen s) z); lia.
  - destruct (MAX_KEY <? keygen s); [discriminate|].
    destruct (records s !! KNum (keygen s)); [discriminate|].
    intros [= <- <-]. cbn [keygen]. lia.
Qed.

Lemma add_generated_key v s k s' :
  extract_key v = Ok None → add v s = Ok (k, s') →
  k = KNum (keygen s) ∧ keygen s ≤ MAX_KEY.
Proof.
  intros Hk. unfold add. rewrite Hk.
  destruct (Z.ltb_spec MAX_KEY (keygen s)); [discriminate|].
  destruct (records s !! KNum (keygen s)); [discriminate|].
  now intros [= <- _].
Qed.

Lemma extract_key_new_record now r words :
  r !! "id" = None → extract_key (new_record now r words) = Ok None.
Proof.
  intros Hid. unfold extract_key, keyPath.
  now rewrite new_record_other, Hid by discriminate.
Qed.

(** A record whose [id] reads as undefined and that [add] accepts has no
    [id] property at all. *)
Lemma add_undefined_id now r words s k s' :
  get r "id" = VUndef → add (new_record now r words) s = Ok (k, s') →
  r !! "id" = None.
Proof.
  intros Hid Ha. unfold get in Hid.
  destruct (r !! "id") as [v|] eqn:Hr; [|reflexivity].
  cbn in Hid. subst v. unfold add, extract_key, keyPath in Ha.
  rewrite new_record_other, Hr in Ha by discriminate. discriminate.
Qed.

Lemma step_above c st s z :
  objectStores (indexedDB st) !! STORE_NAME = Some s →
  above z (keygen s) →
  ∃ s', objectStores (indexedDB (step c st)) !! STORE_NAME = Some s'
        ∧ above z (keygen s').
Proof.
  intros Hs Hz. destruct (step_store c st s Hs) as (s' & Hs' & Hcase).
  exists s'. split; [assumption|].
  destruct Hcase as [->|[(_ & _ & m & _ & ->)|[(now & r & words & k & _ & Ha)
                    |[(q & _ & Hd)|[_ ->]]]]]; try assumption.
  - eapply add_above; eassumption.
  - unfold delete in Hd. destruct (to_key q); [|discriminate].
    now injection Hd as <-.
Qed.

Lemma run_above cs z :
  ∀ st s, objectStores (indexedDB st) !! STORE_NAME = Some s →
          above z (keygen s) →
          ∃ s', objectStores (indexedDB (run cs st)) !! STORE_NAME = Some s'
                ∧ above z (keygen s').
Proof.
  induction cs as [|c cs IH]; intros st s Hs Hz; [eauto|].
  rewrite run_cons. destruct (step_above c st s z Hs Hz) as (s1 & Hs1 & Hz1).
  eapply IH; eassumption.
Qed.

End Identifiers.

(** X11.  Identifiers are never reused: an id that the key generator assigns
    (to a record without [id]) is larger than every numeric id any earlier
    [addClippedPage] returned, whatever was deleted or cleared in between. *)
Theorem ids_never_reused (now1 now2 : jsstring) (r1 r2 : object)
    (st st1 st2 : state) (z1 : Z) (k2 : key) (cs : list call) :
  addClippedPage now1 r1 st = (Ok (KNum z1), st1) →
  get r2 "id" = VUndef →
  addClippedPage now2 r2 (run cs st1) = (Ok k2, st2) →
  ∃ z2, k2 = KNum z2 ∧ z1 < z2.
Proof.
  intros (w1 & s & s1 & _ & _ & _ & Ha1 & ->)%addClippedPage_Ok Hid
         (w2 & s2 & s2' & _ & _ & Hs2 & Ha2 & _)%addClippedPage_Ok.
  apply add_numeric_above in Ha1.
  destruct (run_above cs z1 (set_store s1 st) s1) as (s2'' & Hs2'' & Hz);
    [cbn; apply lookup_insert_eq | assumption |].
  rewrite Hs2 in Hs2''. injection Hs2'' as <-.
  pose proof (add_undefined_id _ _ _ _ _ _ Hid Ha2) as Hnone.
  apply add_generated_key in Ha2 as [-> Hle];
    [|now apply extract_key_new_record].
  exists (keygen s2). split; [reflexivity | lia].
Qed.

Lemma ids_never_reused_witness :
  ∃ z2,
    KNum 3 = KNum z2 ∧ 2 < z2.
Proof.
  refine (ids_never_reused noon noon sample_page sample_page
            (opened {[ KNum 1 := stored_sample ]} 2)
            (addClippedPage noon sample_page (opened {[ KNum 1 := stored_sample ]} 2)).2
            (addClippedPage noon sample_page
               (run [CDelete (VNum 2); CClear; CInit]
                  (addClippedPage noon sample_page
                     (opened {[ KNum 1 := stored_sample ]} 2)).2)).2
            2 (KNum 3) [CDelete (VNum 2); CClear; CInit] _ _ _).
  - vm_compute; reflexivity.
  - vm_compute; reflexivity.
  - vm_compute; reflexivity.
Defined.

(** X12.  Once the database is at version 2, no call changes a stored record
    in place: a key that has a record before and after a call has the same
    record. *)
Theorem records_not_modified (c : call) (st : state) (s s' : objectStore)
    (k : key) (v v' : object) :
  version (indexedDB st) = DB_VERSION →
  objectStores (indexedDB st) !! STORE_NAME = Some s →
  objectStores (indexedDB (step c st)) !! STORE_NAME = Some s' →
  records s !! k = Some v →
  records s' !! k = Some v' →
  v' = v.
Proof.
  intros Hver Hs Hs' Hv Hv'.
  destruct (step_store c st s Hs) as (s0 & Hs0 & Hcase).
  rewrite Hs' in Hs0. injection Hs0 as <-.
  destruct Hcase as [->|[(_ & Hlt & _)|[(now & r & words & k0 & _ & Ha)
                    |[(q & _ & Hd)|[_ ->]]]]].
  - congruence.
  - lia.
  - apply add_Ok in Ha as (Hfree & x & Hrec & _). rewrite Hrec in Hv'.
    rewrite lookup_insert in Hv'. case_decide; congruence.
  - unfold delete in Hd. destruct (to_key q) as [k0|]; [|discriminate].
    injection Hd as <-. cbn [records] in Hv'.
    apply lookup_delete_Some in Hv' as [_ Hv']. congruence.
  - cbn in Hv'. now rewrite lookup_empty in Hv'.
Qed.

Lemma records_not_modified_witness :
  version (indexedDB (opened {[ KNum 1 := stored_sample ]} 2)) = DB_VERSION
  ∧ ∃ s' v',
      objectStores
        (indexedDB (step (CAdd noon sample_page) (opened {[ KNum 1 := stored_sample ]} 2)))
        !! STORE_NAME = Some s'
      ∧ size (records s') = 2%nat
      ∧ records s' !! KNum 1 = Some v'
      ∧ v' = stored_sample.
Proof.
  split; [reflexivity|].
  destruct (objectStores
              (indexedDB (step (CAdd noon sample_page)
                            (opened {[ KNum 1 := stored_sample ]} 2)))
              !! STORE_NAME) as [s'|] eqn:Hs'; [|vm_compute in Hs'; discriminate].
  destruct (records s' !! KNum 1) as [v'|] eqn:Hv'.
  - exists s', v'. split; [reflexivity|].
    split; [vm_compute in Hs'; injection Hs' as <-; reflexivity|].
    split; [assumption|].
    refine (records_not_modified (CAdd noon sample_page)
              (opened {[ KNum 1 := stored_sample ]} 2)
              {| records := {[ KNum 1 := stored_sample ]}; keygen := 2 |}
              s' (KNum 1) stored_sample v' _ _ Hs' _ Hv').
    + reflexivity.
    + vm_compute; reflexivity.
    + reflexivity.
  - vm_compute in Hs'. injection Hs' as <-. vm_compute in Hv'. discriminate.
Defined.

(** ** Metadata of the stored records *)

Section StoredMetadata.

Implicit Types (st : state) (s : objectStore) (c : call) (cs : list call).

Lemma truthy_non_null (v : value) : truthy v = true → non_null v.
Proof. destruct v; cbn; intros H; split; congruence. Qed.

Lemma missing_metadata_false (d : object) :
  missing_metadata d = false →
  non_null (get d "wordCount") ∧ non_null (get d "readingTime").
Proof.
  unfold missing_metadata. intros [H1 H2]%orb_false_elim.
  apply negb_false_iff in H1, H2. split; now apply truthy_non_null.
Qed.

(** Whatever the records were, a scan that runs to its end leaves every
    record with both fields. *)
Lemma scan_has_metadata (m m' : gmap key object) (g : Z) :
  openCursor_scan m = Ok m' → has_metadata {| records := m'; keygen := g |}.
Proof.
  intros Hscan k d' Hd'. cbn [records] in Hd'.
  pose proof (openCursor_scan_result _ _ Hscan k) as Hk.
  destruct (m !! k) as [d|]; [|congruence].
  destruct Hk as (d'' & Hstep & Hm'). rewrite Hd' in Hm'. injection Hm' as <-.
  apply cursor_step_cases in Hstep as [[Hb ->]|[Hb _]]; rewrite backfill_unfold in Hb.
  - destruct (missing_metadata d) eqn:Hmiss.
    + now destruct (words_of _).
    + now apply missing_metadata_false.
  - destruct (missing_metadata d); [|discriminate].
    destruct (words_of _) as [words|]; [|discriminate]. injection Hb as <-.
    unfold get.
    rewrite lookup_insert_eq, lookup_insert_ne, lookup_insert_eq by discriminate.
    repeat split; discriminate.
Qed.

Lemma step_has_metadata c st s :
  objectStores (indexedDB st) !! STORE_NAME = Some s →
  has_metadata s →
  ∃ s', objectStores (indexedDB (step c st)) !! STORE_NAME = Some s'
        ∧ has_metadata s'.
Proof.
  intros Hs Hm. destruct (step_store c st s Hs) as (s' & Hs' & Hcase).
  exists s'. split; [assumption|].
  destruct Hcase as [->|[(_ & _ & m & Hscan & ->)|[(now & r & words & k0 & _ & Ha)
                    |[(q & _ & Hd)|[_ ->]]]]].
  - assumption.
  - eapply scan_has_metadata; eassumption.
  - apply add_Ok in Ha as (_ & x & Hrec & _ & Hx). intros k v. rewrite Hrec.
    rewrite lookup_insert. case_decide; [|apply Hm]. intros [= <-].
    unfold get.
    rewrite !Hx, new_record_wordCount, new_record_readingTime
      by (unfold keyPath; discriminate).
    repeat split; discriminate.
  - unfold delete in Hd. destruct (to_key q) as [k0|]; [|discriminate].
    injection Hd as <-. intros k v Hv. cbn [records] in Hv.
    apply lookup_delete_Some in Hv as [_ Hv]. now apply (Hm k).
  - intros k v. cbn. now rewrite lookup_empty.
Qed.

Lemma run_has_metadata cs :
  ∀ st,
    (∀ s, objectStores (indexedDB st) !! STORE_NAME = Some s → has_metadata s) →
    ∀ s, objectStores (indexedDB (run cs st)) !! STORE_NAME = Some s →
         has_metadata s.
Proof.
  induction cs as [|c cs IH]; intros st Hst; [assumption|].
  rewrite run_cons. apply IH. intros s1 Hs1.
  destruct (objectStores (indexedDB st) !! STORE_NAME) as [s|] eqn:Hs.
  - destruct (step_has_metadata c st s Hs (Hst s eq_refl)) as (s' & Hs' & Hm').
    rewrite Hs' in Hs1. now injection Hs1 as <-.
  - rewrite step_other_stores in Hs1 by now right. congruence.
Qed.

Lemma initDB_upgrade_has_metadata st st' s' :
  version (indexedDB st) < DB_VERSION →
  initDB st = (Ok (), st') →
  objectStores (indexedDB st') !! STORE_NAME = Some s' →
  has_metadata s'.
Proof.
  intros Hlt. unfold initDB, onupgradeneeded. cbn [objectStores version].
  destruct (Z.ltb_spec DB_VERSION (version (indexedDB st))); [discriminate|].
  destruct (Z.ltb_spec (version (indexedDB st)) DB_VERSION); [|lia].
  destruct (objectStores (indexedDB st) !! STORE_NAME) as [s|] eqn:Hs.
  - destruct (openCursor_scan (records s)) as [m|] eqn:Hm; [|discriminate].
    intros [= <-]. cbn. rewrite lookup_insert_eq. intros [= <-].
    eapply scan_has_metadata; eassumption.
  - intros [= <-]. cbn. congruence.
Qed.

End StoredMetadata.

(** X13.  After an [initDB] that upgraded the database (stored version below
    2), and whatever calls follow, every record [getAllClippedPages] returns
    has non-null [wordCount] and [readingTime]. *)
Theorem metadata_after_upgrade (st st' : state) (cs : list call)
    (pages : list object) (x : object) :
  version (indexedDB st) < DB_VERSION →
  initDB st = (Ok (), st') →
  (getAllClippedPages (run cs st')).1 = Ok pages →
  x ∈ pages →
  non_null (get x "wordCount") ∧ non_null (get x "readingTime").
Proof.
  intros Hlt Hinit Hget Hx. unfold getAllClippedPages in Hget.
  destruct (db (run cs st')); [|discriminate].
  destruct (transaction (run cs st')) as [s|] eqn:Hs; [|discriminate].
  injection Hget as <-. apply transaction_Ok in Hs.
  apply elem_of_getAll in Hx as [k Hk].
  refine (run_has_metadata cs st' _ s Hs k x Hk).
  intros s'. now apply initDB_upgrade_has_metadata with (st := st).
Qed.

Lemma metadata_after_upgrade_witness :
  ∃ x, x ∈ getAll {| records := post_migration; keygen := 4 |}
       ∧ get x "title" = VStr (lit "A")
       ∧ non_null (get x "wordCount") ∧ non_null (get x "readingTime").
Proof.
  exists (<["readingTime" := VNum 1]> (<["wordCount" := VNum 2]> old_record)).
  assert (Hx : <["readingTime" := VNum 1]> (<["wordCount" := VNum 2]> old_record)
               ∈ getAll {| records := post_migration; keygen := 4 |}).
  { apply elem_of_getAll. exists (KNum 1). reflexivity. }
  split; [exact Hx|]. split; [reflexivity|].
  refine (metadata_after_upgrade (legacy pre_migration 3)
            (opened pre_migration 3)
            [CAdd noon sample_page; CDelete (VNum 3)]
            (getAll {| records := post_migration; keygen := 4 |}) _ _ _ _ Hx).
  - reflexivity.
  - vm_compute; reflexivity.
  - vm_compute; reflexivity.
Defined.

(** ** Reading, deleting, clearing *)

Section ReadDelete.

Implicit Types (st : state) (s : objectStore).

Lemma getAll_ids s :
  wf_store s →
  (fun r => get r "id") <$> getAll s = key_value <$> (entries (records s)).*1.
Proof.
  intros Hwf. unfold getAll.
  assert (H : Forall (fun e => get e.2 "id" = key_value e.1) (entries (records s))).
  { apply list.Forall_forall. intros [k v] Hin%elem_of_entries.
    now apply (wf_store_id s). }
  induction H as [|[k v] l Hkv _ IH]; [reflexivity|].
  cbn in *. now rewrite Hkv, IH.
Qed.

Lemma key_value_Inj : Inj (=) (=) key_value.
Proof. intros k k'. apply key_value_inj. Qed.

Lemma length_getAll s : length (getAll s) = size (records s).
Proof.
  unfold getAll. rewrite length_fmap, entries_perm.
  apply length_map_to_list.
Qed.

End ReadDelete.

(** X14.  In an initialized state whose store exists, [getAllClippedPages]
    succeeds with as many records as the store holds, and no two of them
    have the same [id]. *)
Theorem getAll_distinct_ids (st : state) (s : objectStore) :
  is_Some (db st) →
  objectStores (indexedDB st) !! STORE_NAME = Some s →
  wf_store s →
  ∃ pages,
    getAllClippedPages st = (Ok pages, st)
    ∧ length pages = size (records s)
    ∧ NoDup ((fun r => get r "id") <$> pages).
Proof.
  intros Hdb Hs Hwf. exists (getAll s).
  split; [now apply getAllClippedPages_ready|].
  split; [apply length_getAll|].
  rewrite getAll_ids by assumption.
  apply (NoDup_fmap_2 _ (Inj0 := key_value_Inj)), NoDup_entries_keys.
Qed.

Lemma getAll_distinct_ids_witness :
  ∃ pages,
    getAllClippedPages (opened post_migration 3) = (Ok pages, opened post_migration 3)
    ∧ length pages = size post_migration
    ∧ NoDup ((fun r => get r "id") <$> pages).
Proof.
  refine (getAll_distinct_ids (opened post_migration 3)
            {| records := post_migration; keygen := 3 |} _ _ _).
  - vm_compute; eauto.
  - vm_compute; reflexivity.
  - repeat split; cbn [records keygen]; [|lia|].
    + intros k v Hv. unfold post_migration in Hv.
      apply lookup_insert_Some in Hv as [[<- <-]|[_ [<- <-]%lookup_singleton_Some]];
        reflexivity.
    + intros _ z [v Hv]. unfold post_migration in Hv.
      apply lookup_insert_Some in Hv as [[[= <-] _]|[_ [[= <-] _]%lookup_singleton_Some]];
        lia.
Defined.

(** X15.  Deleting the id that [addClippedPage] has just returned succeeds and
    brings the records back to what they were before the addition;
    [getAllClippedPages] then returns what it returned before. *)
Theorem add_then_delete (now : jsstring) (pageData : object) (st st1 : state)
    (id : key) :
  addClippedPage now pageData st = (Ok id, st1) →
  ∃ st2 s s2,
    deleteClippedPage (key_value id) st1 = (Ok (), st2)
    ∧ objectStores (indexedDB st) !! STORE_NAME = Some s
    ∧ objectStores (indexedDB st2) !! STORE_NAME = Some s2
    ∧ records s2 = records s
    ∧ (getAllClippedPages st2).1 = (getAllClippedPages st).1.
Proof.
  intros (words & s & s1 & [c Hc] & _ & Hs & Ha & ->)%addClippedPage_Ok.
  apply add_Ok in Ha as (Hfree & x & Hrec & _).
  set (s2 := {| records := base.delete id (records s1); keygen := keygen s1 |}).
  assert (Hrec2 : records s2 = records s).
  { unfold s2. cbn [records]. rewrite Hrec, delete_insert_eq. now apply delete_id. }
  exists (set_store s2 (set_store s1 st)), s, s2.
  split.
  { unfold deleteClippedPage. rewrite db_set_store, Hc, transaction_set_store.
    unfold delete. now rewrite to_key_key_value. }
  split; [assumption|].
  split; [cbn; apply lookup_insert_eq|].
  split; [assumption|].
  unfold getAllClippedPages. rewrite !db_set_store, Hc, transaction_set_store.
  rewrite (proj2 (transaction_Ok st s) Hs). cbn [fst].
  unfold getAll. now rewrite Hrec2.
Qed.

Lemma add_then_delete_witness :
  ∃ st2 s s2,
    deleteClippedPage (VNum 2)
      (addClippedPage noon sample_page (opened {[ KNum 1 := stored_sample ]} 2)).2
    = (Ok (), st2)
    ∧ objectStores (indexedDB (opened {[ KNum 1 := stored_sample ]} 2)) !! STORE_NAME
      = Some s
    ∧ objectStores (indexedDB st2) !! STORE_NAME = Some s2
    ∧ records s2 = records s
    ∧ (getAllClippedPages st2).1
      = (getAllClippedPages (opened {[ KNum 1 := stored_sample ]} 2)).1.
Proof.
  refine (add_then_delete noon sample_page (opened {[ KNum 1 := stored_sample ]} 2)
            (addClippedPage noon sample_page (opened {[ KNum 1 := stored_sample ]} 2)).2
            (KNum 2) _).
  vm_compute; reflexivity.
Defined.

(** X16.  Deleting the same id a second time succeeds and changes nothing. *)
Theorem delete_twice (id : value) (st st1 : state) :
  deleteClippedPage id st = (Ok (), st1) →
  deleteClippedPage id st1 = (Ok (), st1).
Proof.
  unfold deleteClippedPage at 1. destruct (db st) as [c|] eqn:Hc; [|discriminate].
  destruct (transaction st) as [s|] eqn:Hs; [|discriminate].
  destruct (delete id s) as [s1|] eqn:Hd; [|discriminate]. intros [= <-].
  unfold deleteClippedPage. rewrite db_set_store, Hc, transaction_set_store.
  unfold delete in *. destruct (to_key id) as [k|]; [|discriminate].
  injection Hd as <-. cbn [records keygen]. rewrite delete_delete_eq.
  f_equal. apply set_store_same. cbn. apply lookup_insert_eq.
Qed.

Lemma delete_twice_witness :
  deleteClippedPage (VNum 1) (opened {[ KNum 1 := stored_sample ]} 2)
  = (Ok (), opened ∅ 2)
  ∧ deleteClippedPage (VNum 1) (opened ∅ 2) = (Ok (), opened ∅ 2).
Proof.
  assert (H : deleteClippedPage (VNum 1) (opened {[ KNum 1 := stored_sample ]} 2)
              = (Ok (), opened ∅ 2)) by (vm_compute; reflexivity).
  split; [exact H | exact (delete_twice _ _ _ H)].
Defined.

(** X17.  [clearAllClippedPages] does not reset the key generator: a record
    that has no [id] property, added after a successful clear, gets the
    generator's next number, not 1, and is then the only record of the
    store. *)
Theorem clear_then_add (now : jsstring) (pageData : object) (st st1 : state)
    (s : objectStore) (words : list jsstring) :
  objectStores (indexedDB st) !! STORE_NAME = Some s →
  clearAllClippedPages st = (Ok (), st1) →
  keygen s ≤ MAX_KEY →
  pageData !! "id" = None →
  words_of (or_else (get pageData "content") (VStr [])) = Some words →
  ∃ st2,
    addClippedPage now pageData st1 = (Ok (KNum (keygen s)), st2)
    ∧ getAllClippedPages st2
      = (Ok [<["id" := VNum (keygen s)]> (new_record now pageData words)], st2).
Proof.
  intros Hs Hclear Hle Hid Hw.
  unfold clearAllClippedPages in Hclear.
  destruct (db st) as [c|] eqn:Hc; [|discriminate].
  rewrite (proj2 (transaction_Ok st s) Hs) in Hclear. injection Hclear as <-.
  eexists. split.
  - unfold addClippedPage. rewrite db_set_store, Hc, Hw, transaction_set_store.
    unfold add. rewrite (extract_key_new_record now pageData words Hid).
    cbn [clear keygen records].
    destruct (Z.ltb_spec MAX_KEY (keygen s)); [lia|].
    rewrite lookup_empty. reflexivity.
  - unfold getAllClippedPages. rewrite !db_set_store, Hc, transaction_set_store.
    unfold getAll, entries. cbn [records].
    rewrite insert_empty, map_to_list_singleton. reflexivity.
Qed.

Lemma clear_then_add_witness :
  ∃ st2,
    addClippedPage noon sample_page (opened ∅ 2) = (Ok (KNum 2), st2)
    ∧ getAllClippedPages st2
      = (Ok [<["id" := VNum 2]>
               (new_record noon sample_page [lit "one"; lit "two"; lit "three"])],
         st2).
Proof.
  refine (clear_then_add noon sample_page (opened {[ KNum 1 := stored_sample ]} 2)
            (opened ∅ 2) {| records := {[ KNum 1 := stored_sample ]}; keygen := 2 |}
            [lit "one"; lit "two"; lit "three"] _ _ _ _ _).
  - vm_compute; reflexivity.
  - vm_compute; reflexivity.
  - vm_compute. discriminate.
  - reflexivity.
  - vm_compute; reflexivity.
Defined.

(** ** The delete button *)

Section DeleteButton.

Implicit Types (st : state) (s : objectStore) (u : Decimal.uint).

Lemma read_digits_uint_chars u : read_digits (uint_chars u) = u.
Proof. induction u; cbn; congruence. Qed.

Lemma drop_ws_uint_chars u : drop_ws (uint_chars u) = uint_chars u.
Proof. now destruct u. Qed.

Lemma to_uint_not_Nil (n : N) : N.to_uint n ≠ Decimal.Nil.
Proof.
  rewrite <- (DecimalN.Unsigned.of_to n) at 1.
  rewrite DecimalN.Unsigned.to_of. apply DecimalFacts.unorm_nonnil.
Qed.

(** A digit string, with or without a minus sign, is read back as the number
    it denotes. *)
Lemma parseInt_digits (n : N) :
  parseInt (uint_chars (N.to_uint n)) = VNum (Z.of_N n)
  ∧ parseInt (45%N :: uint_chars (N.to_uint n)) = VNum (- Z.of_N n).
Proof.
  pose proof (to_uint_not_Nil n) as Hnil.
  pose proof (DecimalN.Unsigned.of_to n) as Hof.
  unfold parseInt. split.
  - rewrite drop_ws_uint_chars.
    assert (Hsign : match uint_chars (N.to_uint n) with
                    | 45%N :: s2 => (true, s2)
                    | 43%N :: s2 => (false, s2)
                    | _ => (false, uint_chars (N.to_uint n))
                    end = (false, uint_chars (N.to_uint n))).
    { now destruct (N.to_uint n). }
    rewrite Hsign, read_digits_uint_chars.
    destruct (N.to_uint n); try contradiction; now rewrite Hof.
  - change (drop_ws (45%N :: uint_chars (N.to_uint n)))
      with (45%N :: uint_chars (N.to_uint n)).
    cbn match. rewrite read_digits_uint_chars.
    destruct (N.to_uint n); try contradiction; now rewrite Hof.
Qed.

Lemma parseInt_to_string (z : Z) : parseInt (to_string (VNum z)) = VNum z.
Proof.
  cbn [to_string]. destruct (Z.ltb_spec z 0).
  - rewrite (proj2 (parseInt_digits (Z.abs_N z))). f_equal. lia.
  - rewrite (proj1 (parseInt_digits (Z.to_N z))). f_equal. lia.
Qed.

(** [parseInt] gives a number or NaN, never a string. *)
Lemma parseInt_number (attr : jsstring) :
  parseInt attr = VNaN ∨ ∃ z, parseInt attr = VNum z.
Proof.
  unfold parseInt.
  destruct (match drop_ws attr with
            | 45%N :: s2 => (true, s2)
            | 43%N :: s2 => (false, s2)
            | _ => (false, drop_ws attr)
            end) as [negative s2].
  destruct (read_digits s2); eauto.
Qed.

End DeleteButton.

(** X18.  For a displayed record whose [id] is an integer between -2^53 and
    2^53 (every id the key generator assigns is one), the number the click
    handler reads back from the button's [data-id] is that id, and the click
    removes exactly that record: afterwards the store holds the records it
    held before, except this one. *)
Theorem delete_button_removes_its_record (st : state) (s : objectStore)
    (page : object) (z : Z) :
  is_Some (db st) →
  objectStores (indexedDB st) !! STORE_NAME = Some s →
  wf_store s →
  page ∈ getAll s →
  get page "id" = VNum z →
  - MAX_KEY ≤ z ≤ MAX_KEY →
  parseInt (data_id page) = VNum z
  ∧ ∃ s',
      objectStores (indexedDB (delete_click (data_id page) st)) !! STORE_NAME = Some s'
      ∧ ∀ r, r ∈ getAll s' ↔ r ∈ getAll s ∧ r ≠ page.
Proof.
  intros [c Hc] Hs Hwf Hpage Hid _.
  assert (Hparse : parseInt (data_id page) = VNum z).
  { unfold data_id. rewrite Hid. apply parseInt_to_string. }
  split; [assumption|].
  apply elem_of_getAll in Hpage as [k Hk].
  assert (k = KNum z) as ->.
  { apply key_value_inj. rewrite <- (wf_store_id _ _ _ Hwf Hk). assumption. }
  exists {| records := base.delete (KNum z) (records s); keygen := keygen s |}.
  split.
  - unfold delete_click, deleteClippedPage. rewrite Hparse, Hc.
    rewrite (proj2 (transaction_Ok st s) Hs). cbn. apply lookup_insert_eq.
  - intros r. rewrite !elem_of_getAll. cbn [records]. split.
    + intros (k' & [Hne Hr]%lookup_delete_Some). split; [eauto|].
      intros ->. apply Hne. apply key_value_inj.
      rewrite <- (wf_store_id _ _ _ Hwf Hr). now rewrite Hid.
    + intros ((k' & Hr) & Hne). exists k'. apply lookup_delete_Some.
      split; [|assumption]. intros <-. congruence.
Qed.

Lemma delete_button_removes_its_record_witness :
  parseInt (data_id kept_record) = VNum 2
  ∧ ∃ s',
      objectStores (indexedDB (delete_click (data_id kept_record)
                                 (opened post_migration 3))) !! STORE_NAME = Some s'
      ∧ ∀ r, r ∈ getAll s'
             ↔ r ∈ getAll {| records := post_migration; keygen := 3 |} ∧ r ≠ kept_record.
Proof.
  refine (delete_button_removes_its_record (opened post_migration 3)
            {| records := post_migration; keygen := 3 |} kept_record 2 _ _ _ _ _ _).
  - vm_compute; eauto.
  - vm_compute; reflexivity.
  - repeat split; cbn [records keygen]; [|lia|].
    + intros k v Hv. unfold post_migration in Hv.
      apply lookup_insert_Some in Hv as [[<- <-]|[_ [<- <-]%lookup_singleton_Some]];
        reflexivity.
    + intros _ z [v Hv]. unfold post_migration in Hv.
      apply lookup_insert_Some in Hv as [[[= <-] _]|[_ [[= <-] _]%lookup_singleton_Some]];
        lia.
  - apply elem_of_getAll. exists (KNum 2). reflexivity.
  - reflexivity.
  - vm_compute. split; discriminate.
Defined.

(** X19.  A record stored under a string key (an [id] the caller supplied as
    a string) is never removed by a delete button, whatever its [data-id]
    reads: the click handler deletes by the result of [parseInt], which is a
    number or NaN. *)
Theorem string_key_survives_clicks (attr : jsstring) (st : state)
    (s : objectStore) (t : jsstring) (page : object) :
  objectStores (indexedDB st) !! STORE_NAME = Some s →
  records s !! KStr t = Some page →
  ∃ s',
    objectStores (indexedDB (delete_click attr st)) !! STORE_NAME = Some s'
    ∧ records s' !! KStr t = Some page.
Proof.
  intros Hs Hpage. unfold delete_click, deleteClippedPage.
  destruct (db st); [|cbn; eauto].
  rewrite (proj2 (transaction_Ok st s) Hs).
  destruct (parseInt_number attr) as [->|[z ->]]; cbn; [eauto|].
  eexists. split; [apply lookup_insert_eq|].
  cbn. now rewrite lookup_delete_ne.
Qed.

Lemma string_key_survives_clicks_witness :
  ∃ s',
    objectStores
      (indexedDB
         (delete_click (data_id (<["id" := VStr (lit "7")]> sample_page))
            (addClippedPage noon (<["id" := VStr (lit "7")]> sample_page)
               (opened ∅ 1)).2)) !! STORE_NAME = Some s'
    ∧ records s' !! KStr (lit "7")
      = Some (new_record noon (<["id" := VStr (lit "7")]> sample_page)
                [lit "one"; lit "two"; lit "three"]).
Proof.
  refine (string_key_survives_clicks
            (data_id (<["id" := VStr (lit "7")]> sample_page))
            (addClippedPage noon (<["id" := VStr (lit "7")]> sample_page)
               (opened ∅ 1)).2
            {| records := {[ KStr (lit "7") :=
                               new_record noon (<["id" := VStr (lit "7")]> sample_page)
                                 [lit "one"; lit "two"; lit "three"] ]};
               keygen := 1 |}
            (lit "7") _ _ _).
  - vm_compute; reflexivity.
  - vm_compute; reflexivity.
Defined.

(** ** States that calls cannot leave *)

Section Stuck.

Implicit Types (st : state) (c : call) (cs : list call).

Lemma step_uninitialized c st :
  db st = None → (∃ e, (initDB st).1 = Err e) → step c st = st.
Proof.
  intros Hdb [e He]. destruct c as [|now r| |q|]; cbn [step].
  - destruct (initDB st) as [[[]|e'] st'] eqn:Hi; [discriminate|].
    now apply initDB_Err in Hi.
  - unfold addClippedPage. now rewrite Hdb.
  - unfold getAllClippedPages. now rewrite Hdb.
  - unfold deleteClippedPage. now rewrite Hdb.
  - unfold clearAllClippedPages. now rewrite Hdb.
Qed.

Lemma run_wf cs : ∀ st, wf_state st → wf_state (run cs st).
Proof.
  induction cs as [|c cs IH]; intros st Hwf; [assumption|].
  rewrite run_cons. apply IH.
  destruct (operations_keep_wf st Hwf) as (Hi & Ha & Hg & Hd & Hc).
  destruct c; cbn [step]; auto.
Qed.

End Stuck.

(** X20.  When [db] is unset and [initDB] rejects (a stored version above 2,
    or a record on which the upgrade scan throws), no sequence of calls
    changes anything: [initDB] rejects again each time and the other
    operations reject for want of a connection. *)
Theorem failed_init_is_permanent (st : state) (cs : list call) :
  db st = None →
  (∃ e, (initDB st).1 = Err e) →
  run cs st = st.
Proof.
  intros Hdb Hinit. induction cs as [|c cs IH]; [reflexivity|].
  rewrite run_cons, step_uninitialized by assumption. exact IH.
Qed.

Lemma failed_init_is_permanent_witness :
  run [CInit; CAdd noon sample_page; CClear; CInit; CGetAll]
    {| db := None;
       indexedDB := {| version := 3;
                       objectStores := {[ STORE_NAME := {| records := post_migration;
                                                           keygen := 3 |} ]} |} |}
  = {| db := None;
       indexedDB := {| version := 3;
                       objectStores := {[ STORE_NAME := {| records := post_migration;
                                                           keygen := 3 |} ]} |} |}.
Proof.
  apply failed_init_is_permanent.
  - reflexivity.
  - exists VersionError. reflexivity.
Defined.

(** X21.  Along any sequence of calls the stores stay as the engine keeps
    them: every record carries in its [id] property the key it is stored
    under, and the key generator, while it has keys left, is above every
    numeric key of the store. *)
Theorem invariant_along_calls (st : state) (cs : list call) :
  wf_state st → wf_state (run cs st).
Proof. intros Hwf. now apply run_wf. Qed.

Lemma invariant_along_calls_witness :
  wf_state (legacy pre_migration 3)
  ∧ wf_state (run [CInit; CAdd noon sample_page; CDelete (VNum 1);
                   CAdd noon (<["id" := VNum 9]> sample_page); CClear]
                (legacy pre_migration 3)).
Proof.
  assert (Hwf : wf_state (legacy pre_migration 3)).
  { intros n s Hn. cbn in Hn. apply lookup_singleton_Some in Hn as [_ <-].
    repeat split; cbn [records keygen]; [|lia|].
    - intros k v Hv. unfold pre_migration in Hv.
      apply lookup_insert_Some in Hv as [[<- <-]|[_ [<- <-]%lookup_singleton_Some]];
        reflexivity.
    - intros _ z [v Hv]. unfold pre_migration in Hv.
      apply lookup_insert_Some in Hv as [[[= <-] _]|[_ [[= <-] _]%lookup_singleton_Some]];
        lia. }
  split; [exact Hwf | exact (invariant_along_calls _ _ Hwf)].
Defined.
